(** * pynini_rewrite: the rewrite engine and the rule cascade

    A shallow embedding of [pynini_rewrite/rewrite.py] and
    [pynini_rewrite/rule_cascade.py].

    The two modules orchestrate an external transducer library (pynini):
    they never look inside an FST, they only call the library and branch on
    what it answers.  The embedding therefore has three layers:

    - [Py]: the few pieces of the host language the code relies on
      ([str.split], [in] on strings, the stable [sorted], dynamically typed
      return values);
    - [Eff] and [pynini]: exceptions and the trace of library calls as a small
      writer monad, and the library itself as an interface (a type class);
    - [rewrite] and [rule_cascade]: the repository's functions, one
      definition per source function, in source order.

    [PathModel] is a small reference instance of the interface (an acyclic
    FST denoted by the list of its weighted paths); the concrete examples
    run on it. *)

From Stdlib Require Import ZArith List String Ascii Bool Lia.
From Stdlib Require Import Permutation Sorted.
From Stdlib Require Import DecimalString.
Import ListNotations.
Local Open Scope string_scope.
Local Open Scope list_scope.
Local Open Scope Z_scope.
Local Set Warnings "-register-all".

(** String concatenation, as [+] and [str.format] build messages. *)
Infix "+++" := String.append (right associativity, at level 60).

(* ------------------------------------------------------------------ *)
(** ** Host-language preliminaries *)

Module Py.

(** [needle in hay] on strings. *)
Fixpoint contains (needle hay : string) : bool :=
  String.prefix needle hay
  || match hay with
     | EmptyString => false
     | String _ hay' => contains needle hay'
     end.

(** [str.isspace] on one character.  A string is a sequence of code points
    below 256; the whitespace ones are TAB..CR, FS..US, SPACE, NEL and
    NBSP. *)
Definition isspace (c : ascii) : bool :=
  let n := nat_of_ascii c in
  (((9 <=? n) && (n <=? 13)) || ((28 <=? n) && (n <=? 32))
   || (n =? 133) || (n =? 160))%nat.

(** [str.split()] with no argument: the maximal runs of non-whitespace
    characters, in order.  [cur] is the run being read, if any. *)
Fixpoint split_from (cur : option string) (s : string) : list string :=
  match s with
  | EmptyString => match cur with Some w => [w] | None => [] end
  | String c s' =>
      if isspace c then
        match cur with
        | Some w => w :: split_from None s'
        | None => split_from None s'
        end
      else
        split_from
          (Some (match cur with Some w => w | None => "" end +++ String c ""))
          s'
  end.

Definition split (s : string) : list string := split_from None s.

(** [sorted(xs, key=key)]: the sort is stable and compares keys with [<]
    only.  [insert_by] puts an element in front of the first one whose key
    is not smaller, so among equal keys the earlier element stays first. *)
Section Sorted.
Context {A K : Type} (lt : K -> K -> bool) (key : A -> K).

Fixpoint insert_by (x : A) (l : list A) : list A :=
  match l with
  | [] => [x]
  | y :: l' =>
      if lt (key y) (key x) then y :: insert_by x l' else x :: y :: l'
  end.

Fixpoint sorted (l : list A) : list A :=
  match l with
  | [] => []
  | x :: l' => insert_by x (sorted l')
  end.
End Sorted.

(** The values [lattice_to_strings_and_weights] can build or be said to
    build: strings, floats, tuples and lists of such. *)
Inductive value (F : Type) : Type :=
| VStr (s : string)
| VFloat (x : F)
| VTuple (items : list (value F))
| VList (items : list (value F)).
Arguments VStr {F} s.
Arguments VFloat {F} x.
Arguments VTuple {F} items.
Arguments VList {F} items.

End Py.

(* ------------------------------------------------------------------ *)
(** ** Exceptions and the trace of library calls *)

(** The two exception classes of the package: [rewrite.Error] and
    [rule_cascade.Error], each carrying its message. *)
Inductive exn : Type :=
| RewriteError (msg : string)
| CascadeError (msg : string).

Module Eff.

(** What a call ends in.  [Undefined] is the one place where the code reads
    an exhausted path iterator, which the library leaves undefined. *)
Inductive outcome (A : Type) : Type :=
| Ok (a : A)
| Raise (e : exn)
| Undefined.
Arguments Ok {A} a.
Arguments Raise {A} e.
Arguments Undefined {A}.

(** A computation: its outcome and the events it caused, oldest first. *)
Definition M (E A : Type) : Type := outcome A * list E.

Definition ret {E A} (a : A) : M E A := (Ok a, []).
Definition raise {E A} (e : exn) : M E A := (Raise e, []).
Definition undefined {E A} : M E A := (Undefined, []).

(** An event [ev] whose answer is [a]. *)
Definition perform {E A} (ev : E) (a : A) : M E A := (Ok a, [ev]).

Definition bind {E A B} (m : M E A) (k : A -> M E B) : M E B :=
  match fst m with
  | Ok a => let r := k a in (fst r, snd m ++ snd r)
  | Raise e => (Raise e, snd m)
  | Undefined => (Undefined, snd m)
  end.

Definition result {E A} (m : M E A) : outcome A := fst m.
Definition trace {E A} (m : M E A) : list E := snd m.

End Eff.
Import Eff.

Declare Scope eff_scope.
Delimit Scope eff_scope with eff.
Notation "x <- m ;; k" := (bind m (fun x => k))
  (at level 61, m at next level, right associativity) : eff_scope.
Notation "m ;; k" := (bind m (fun _ => k))
  (at level 61, right associativity) : eff_scope.
Local Open Scope eff_scope.

(* ------------------------------------------------------------------ *)
(** ** The transducer library, as the code consumes it *)

Module pynini.

(** "Input string or FST": the library compiles a string to an acceptor on
    entry. *)
Inductive FstLike (F : Type) : Type :=
| Str (s : string)
| Acc (f : F).
Arguments Str {F} s.
Arguments Acc {F} f.

(** How the code calls [Fst.paths]: with one positional argument, or with
    the keyword [output_token_type]. *)
Inductive paths_arg (T : Type) : Type :=
| positional (t : T)
| output_token_type_arg (t : T).
Arguments positional {T} t.
Arguments output_token_type_arg {T} t.

Class Lib : Type := {
  Fst : Type;
  Weight : Type;
  TokenType : Type;
  Far : Type;
  (** Python floats, as far as [sorted] needs them *)
  float : Type;
  float_lt : float -> float -> bool;

  NO_STATE_ID : Z;
  compose : FstLike Fst -> Fst -> string -> Fst;
  start : Fst -> Z;
  num_states : Fst -> Z;
  weight_type : Fst -> string;
  project : Fst -> bool -> Fst;
  rmepsilon : Fst -> Fst;
  arcsort : Fst -> string -> Fst;
  determinize : Fst -> Z -> Weight -> Fst;
  shortestpath : Fst -> Z -> bool -> Fst;
  stringify : Fst -> TokenType -> string;
  (** the items of a path iterator: (istring, ostring, weight) *)
  paths : Fst -> paths_arg TokenType -> list (string * string * Weight);
  matches : Fst -> FstLike Fst -> string -> bool;

  Weight_One : string -> Weight;
  Weight_Zero : string -> Weight;
  Weight_str : Weight -> string;
  Weight_float : Weight -> float;

  (** [Far(path)], [far.find(key)] (which moves the reader) and
      [far.get_fst()] (which reads at the reader's position) *)
  Far_open : string -> Far;
  Far_find : Far -> string -> bool * Far;
  Far_get_fst : Far -> Fst
}.

(** One constructor per library call and one for [logging.warning]. *)
Inductive event {L : Lib} : Type :=
| Compose (a : FstLike Fst) (b : Fst) (compose_filter : string)
| Start (f : Fst)
| NumStates (f : Fst)
| WeightType (f : Fst)
| Project (f : Fst) (project_output : bool)
| Rmepsilon (f : Fst)
| Arcsort (f : Fst) (sort_type : string)
| Determinize (f : Fst) (nstate : Z) (weight : Weight)
| Shortestpath (f : Fst) (nshortest : Z) (unique : bool)
| Stringify (f : Fst) (token_type : TokenType)
| Paths (f : Fst) (arg : paths_arg TokenType)
| Matches (f : Fst) (other : FstLike Fst) (compose_filter : string)
| One (weight_type : string)
| Zero (weight_type : string)
| FarFind (key : string)
| FarGetFst
| Warning (msg : string).

(** A path iterator is the list of the items it still has to yield. *)
Section Iterator.
Context {L : Lib}.

Definition StringPathIterator : Type := list (string * string * Weight).

Definition done (it : StringPathIterator) : bool :=
  match it with [] => true | _ :: _ => false end.

Definition next (it : StringPathIterator) : StringPathIterator := tl it.

Definition ostring (it : StringPathIterator) : M event string :=
  match it with
  | [] => undefined
  | (_, o, _) :: _ => ret o
  end.

Definition weight (it : StringPathIterator) : M event Weight :=
  match it with
  | [] => undefined
  | (_, _, w) :: _ => ret w
  end.

Definition ostrings (it : StringPathIterator) : list string :=
  map (fun p => snd (fst p)) it.
End Iterator.

End pynini.
Import pynini.

(* ------------------------------------------------------------------ *)
(** ** rewrite.py *)

Module rewrite.
Section Functions.
Context {L : Lib}.

Local Abbreviation M := (Eff.M event).

Definition _check_nonempty_and_cleanup (lattice : Fst) : M Fst :=
  s <- perform (Start lattice) (start lattice) ;;
  if s =? NO_STATE_ID then raise (RewriteError "Composition failure")
  else
    projected <- perform (Project lattice true) (project lattice true) ;;
    perform (Rmepsilon projected) (rmepsilon projected).

Definition rewrite_lattice (string : FstLike Fst) (rule : Fst) : M Fst :=
  lattice <- perform (Compose string rule "alt_sequence")
                     (compose string rule "alt_sequence") ;;
  _check_nonempty_and_cleanup lattice.

Definition lattice_to_dfa (lattice : Fst) (optimal_only : bool)
    (state_multiplier : Z) : M Fst :=
  weight_type <- perform (WeightType lattice) (weight_type lattice) ;;
  weight_threshold <-
    (if optimal_only
     then perform (One weight_type) (Weight_One weight_type)
     else perform (Zero weight_type) (Weight_Zero weight_type)) ;;
  n <- perform (NumStates lattice) (num_states lattice) ;;
  let state_threshold := 256 + state_multiplier * n in
  lattice <- perform (Determinize lattice state_threshold weight_threshold)
                     (determinize lattice state_threshold weight_threshold) ;;
  n' <- perform (NumStates lattice) (num_states lattice) ;;
  (if n' =? state_threshold
   then perform
          (Warning ("Unexpected hit state threshold; consider a higher value "
                    +++ "for state_multiplier")) tt
   else ret tt) ;;
  ret lattice.

Definition lattice_to_shortest (lattice : Fst) (nshortest : Z) : M Fst :=
  perform (Shortestpath lattice nshortest true)
          (shortestpath lattice nshortest true).

Definition lattice_to_top_string (lattice : Fst) (token_type : TokenType)
    : M string :=
  best <- perform (Shortestpath lattice 1 false)
                  (shortestpath lattice 1 false) ;;
  perform (Stringify best token_type) (stringify best token_type).

Definition lattice_to_one_top_string (lattice : Fst)
    (token_type : TokenType) : M string :=
  spaths <- perform (Paths lattice (positional token_type))
                    (paths lattice (positional token_type)) ;;
  output <- ostring spaths ;;
  let spaths := next spaths in
  if negb (done spaths) then
    second <- ostring spaths ;;
    w <- weight spaths ;;
    raise (RewriteError
             ("Multiple top rewrites found: " +++ output +++ " and "
              +++ second +++ " (weight: " +++ Weight_str w +++ ")"))
  else ret output.

Definition lattice_to_strings (lattice : Fst) (token_type : TokenType)
    : M (list string) :=
  spaths <- perform (Paths lattice (positional token_type))
                    (paths lattice (positional token_type)) ;;
  ret (ostrings spaths).

(** [input_token_type] is accepted and never used. *)
Definition lattice_to_strings_and_weights (lattice : Fst)
    (input_token_type output_token_type : TokenType)
    : M (Py.value float) :=
  lattice <- _check_nonempty_and_cleanup lattice ;;
  spaths <- perform (Paths lattice (output_token_type_arg output_token_type))
                    (paths lattice (output_token_type_arg output_token_type)) ;;
  let sorted_arpa :=
    Py.sorted float_lt (fun path => Weight_float (snd path)) spaths in
  ret (Py.VList
         (map (fun '(x, y, z) => Py.VTuple (map Py.VStr (Py.split y)))
              sorted_arpa)).

Definition top_rewrite (string : FstLike Fst) (rule : Fst)
    (token_type : TokenType) : M String.string :=
  lattice <- rewrite_lattice string rule ;;
  lattice_to_top_string lattice token_type.

Definition one_top_rewrite (string : FstLike Fst) (rule : Fst)
    (token_type : TokenType) (state_multiplier : Z) : M String.string :=
  lattice <- rewrite_lattice string rule ;;
  lattice <- lattice_to_dfa lattice true state_multiplier ;;
  lattice_to_one_top_string lattice token_type.

Definition rewrites (string : FstLike Fst) (rule : Fst)
    (token_type : TokenType) (state_multiplier : Z)
    : M (list String.string) :=
  lattice <- rewrite_lattice string rule ;;
  lattice <- lattice_to_dfa lattice false state_multiplier ;;
  lattice_to_strings lattice token_type.

Definition top_rewrites (string : FstLike Fst) (rule : Fst)
    (nshortest : Z) (token_type : TokenType) : M (list String.string) :=
  lattice <- rewrite_lattice string rule ;;
  lattice <- lattice_to_shortest lattice nshortest ;;
  lattice_to_strings lattice token_type.

Definition optimal_rewrites (string : FstLike Fst) (rule : Fst)
    (token_type : TokenType) (state_multiplier : Z)
    : M (list String.string) :=
  lattice <- rewrite_lattice string rule ;;
  lattice <- lattice_to_dfa lattice true state_multiplier ;;
  lattice_to_strings lattice token_type.

Definition matches (istring ostring : FstLike Fst) (rule : Fst) : M bool :=
  lattice <- rewrite_lattice istring rule ;;
  perform (Matches lattice ostring "alt_sequence")
          (pynini.matches lattice ostring "alt_sequence").
End Functions.
End rewrite.

(* ------------------------------------------------------------------ *)
(** ** rule_cascade.py *)

Module rule_cascade.
Section Class_RuleCascade.
Context {L : Lib}.

Local Abbreviation M := (Eff.M event).

(** The object: its archive reader and its rule sequence. *)
Record RuleCascade : Type := { far : Far; rules : list Fst }.

Definition __init__ (far_path : string) : RuleCascade :=
  {| far := Far_open far_path; rules := [] |}.

(** The generator, run to its end as [tuple(...)] runs it: the rules it
    yields (or the exception it stops with), and the reader as the lookups
    leave it.  [far.find] moves the reader whether or not the key is
    there. *)
Fixpoint _validate_and_arcsort_rules (far : Far) (names : list string)
    : M (list Fst) * Far :=
  match names with
  | [] => (ret [], far)
  | rule :: names' =>
      let (found, far) := Far_find far rule in
      if found then
        let (rest, far') := _validate_and_arcsort_rules far names' in
        (perform (FarFind rule) tt ;;
         f <- perform FarGetFst (Far_get_fst far) ;;
         r <- perform (Arcsort f "ilabel") (arcsort f "ilabel") ;;
         rs <- rest ;;
         ret (r :: rs),
         far')
      else
        (perform (FarFind rule) tt ;;
         raise (CascadeError ("Cannot find rule: " +++ rule)),
         far)
  end.

(** [self.rules = tuple(...)]: the assignment happens only when the tuple
    was built.  Returns the call's outcome and the object afterwards. *)
Definition set_rules (self : RuleCascade) (names : list string)
    : M unit * RuleCascade :=
  let (gen, far') := _validate_and_arcsort_rules self.(far) names in
  match result gen with
  | Ok rs => ((Ok tt, trace gen), {| far := far'; rules := rs |})
  | Raise e => ((Raise e, trace gen), {| far := far'; rules := self.(rules) |})
  | Undefined => ((Undefined, trace gen), {| far := far'; rules := self.(rules) |})
  end.

(** The [for] loop of [_rewrite_lattice], from its second round on: the
    lattice is an FST by then. *)
Fixpoint thread (lattice : Fst) (rs : list Fst) : M Fst :=
  match rs with
  | [] => ret lattice
  | rule :: rs' =>
      lattice <- rewrite.rewrite_lattice (Acc lattice) rule ;;
      thread lattice rs'
  end.

(** The first round takes the caller's input, a string or an FST. *)
Definition _rewrite_lattice (self : RuleCascade) (istring : FstLike Fst)
    : M Fst :=
  match self.(rules) with
  | [] => raise (CascadeError "No rules requested")
  | rule :: rs =>
      lattice <- rewrite.rewrite_lattice istring rule ;;
      thread lattice rs
  end.

Definition top_rewrite (self : RuleCascade) (istring : FstLike Fst)
    (token_type : TokenType) : M string :=
  lattice <- _rewrite_lattice self istring ;;
  rewrite.lattice_to_top_string lattice token_type.

Definition one_top_rewrite (self : RuleCascade) (istring : FstLike Fst)
    (token_type : TokenType) (state_multiplier : Z) : M string :=
  lattice <- _rewrite_lattice self istring ;;
  lattice <- rewrite.lattice_to_dfa lattice true state_multiplier ;;
  rewrite.lattice_to_one_top_string lattice token_type.

Definition rewrites (self : RuleCascade) (istring : FstLike Fst)
    (token_type : TokenType) (state_multiplier : Z) : M (list string) :=
  lattice <- _rewrite_lattice self istring ;;
  lattice <- rewrite.lattice_to_dfa lattice false state_multiplier ;;
  rewrite.lattice_to_strings lattice token_type.

Definition top_rewrites (self : RuleCascade) (istring : FstLike Fst)
    (nshortest : Z) (token_type : TokenType) : M (list string) :=
  lattice <- _rewrite_lattice self istring ;;
  lattice <- rewrite.lattice_to_shortest lattice nshortest ;;
  rewrite.lattice_to_strings lattice token_type.

Definition optimal_rewrites (self : RuleCascade) (istring : FstLike Fst)
    (token_type : TokenType) (state_multiplier : Z) : M (list string) :=
  lattice <- _rewrite_lattice self istring ;;
  lattice <- rewrite.lattice_to_dfa lattice true state_multiplier ;;
  rewrite.lattice_to_strings lattice token_type.

Definition matches (self : RuleCascade) (istring ostring : FstLike Fst)
    : M bool :=
  lattice <- _rewrite_lattice self istring ;;
  perform (Matches lattice ostring "alt_sequence")
          (pynini.matches lattice ostring "alt_sequence").
End Class_RuleCascade.
End rule_cascade.

(* ------------------------------------------------------------------ *)
(** ** A reference instance of the library

    An acyclic, trimmed FST is denoted by the list of its successful paths,
    each an input string, an output string and a tropical weight, together
    with its number of states.  An FST with no successful path has no state
    at all, hence no start state. *)

Module PathModel.

Inductive tropical : Type :=
| Fin (w : Z)
| Infinity.

Definition times (a b : tropical) : tropical :=
  match a, b with
  | Fin x, Fin y => Fin (x + y)
  | _, _ => Infinity
  end.

Definition ltb (a b : tropical) : bool :=
  match a, b with
  | Fin x, Fin y => x <? y
  | Fin _, Infinity => true
  | Infinity, _ => false
  end.

Definition leb (a b : tropical) : bool := negb (ltb b a).

Definition path : Type := string * string * tropical.
Definition istr (p : path) : string := fst (fst p).
Definition ostr (p : path) : string := snd (fst p).
Definition wgt (p : path) : tropical := snd p.

Record wfst : Type := { nstates : Z; wpaths : list path }.

Definition empty : wfst := {| nstates := 0; wpaths := [] |}.

(** The acceptor of one string: a chain of [length s + 1] states. *)
Definition acceptor (s : string) : wfst :=
  {| nstates := Z.of_nat (String.length s) + 1; wpaths := [(s, s, Fin 0)] |}.

Definition compile (a : FstLike wfst) : wfst :=
  match a with Str s => acceptor s | Acc f => f end.

(** Number of nodes of the prefix tree of the output strings. *)
Fixpoint prefixes (s : string) : list string :=
  match s with
  | EmptyString => [""]
  | String c s' => "" :: map (String c) (prefixes s')
  end.

Definition trie_size (ps : list path) : Z :=
  match ps with
  | [] => 0
  | _ => Z.of_nat (List.length (nodup string_dec (flat_map prefixes (map ostr ps))))
  end.

Definition compose_paths (pa pb : list path) : list path :=
  flat_map
    (fun p =>
       flat_map
         (fun q =>
            if String.eqb (ostr p) (istr q)
            then [(istr p, ostr q, times (wgt p) (wgt q))]
            else [])
         pb)
    pa.

Definition compose (a : FstLike wfst) (b : wfst) (compose_filter : string)
    : wfst :=
  let a := compile a in
  let ps := compose_paths (wpaths a) (wpaths b) in
  {| nstates := match ps with [] => 0 | _ => nstates a * nstates b end;
     wpaths := ps |}.

Definition start (f : wfst) : Z :=
  match wpaths f with [] => -1 | _ :: _ => 0 end.

Definition project (f : wfst) (project_output : bool) : wfst :=
  {| nstates := nstates f;
     wpaths :=
       map (fun p => if project_output then (ostr p, ostr p, wgt p)
                     else (istr p, istr p, wgt p))
           (wpaths f) |}.

(** Strings carry no epsilon, so there is nothing to remove; sorting arcs
    changes no path. *)
Definition rmepsilon (f : wfst) : wfst := f.
Definition arcsort (f : wfst) (sort_type : string) : wfst := f.

(** One path per output string, the lightest. *)
Fixpoint merge (p : path) (l : list path) : list path :=
  match l with
  | [] => [p]
  | q :: l' =>
      if String.eqb (ostr p) (ostr q)
      then (if ltb (wgt p) (wgt q) then p else q) :: l'
      else q :: merge p l'
  end.

Definition one_per_string (ps : list path) : list path :=
  fold_left (fun acc p => merge p acc) ps [].

Definition best_weight (ps : list path) : tropical :=
  fold_right (fun p m => if ltb (wgt p) m then wgt p else m) Infinity ps.

Definition prune (threshold : tropical) (ps : list path) : list path :=
  let best := best_weight ps in
  filter (fun p => leb (wgt p) (times best threshold)) ps.

(** The longest run of paths, lightest first, whose prefix tree fits in
    [nstate] states. *)
Fixpoint fit (nstate : Z) (kept ps : list path) : list path :=
  match ps with
  | [] => kept
  | p :: ps' =>
      if trie_size (kept ++ [p]) <=? nstate
      then fit nstate (kept ++ [p]) ps'
      else kept
  end.

Definition determinize (f : wfst) (nstate : Z) (weight : tropical) : wfst :=
  let ps := Py.sorted ltb wgt (prune weight (one_per_string (wpaths f))) in
  let kept := fit nstate [] ps in
  {| nstates := trie_size kept; wpaths := kept |}.

Definition shortestpath (f : wfst) (nshortest : Z) (unique : bool) : wfst :=
  let ps := if unique then one_per_string (wpaths f) else wpaths f in
  let kept := firstn (Z.to_nat nshortest) (Py.sorted ltb wgt ps) in
  {| nstates := trie_size kept; wpaths := kept |}.

Definition stringify (f : wfst) (token_type : string) : string :=
  match wpaths f with
  | [] => ""
  | p :: _ => ostr p
  end.

Definition paths (f : wfst) (arg : paths_arg string) : list path := wpaths f.

Definition matches (f : wfst) (other : FstLike wfst) (compose_filter : string)
    : bool :=
  negb (start (compose (Acc f) (compile other) compose_filter) =? -1).

Definition Weight_str (w : tropical) : string :=
  match w with
  | Fin z => NilZero.string_of_int (Z.to_int z)
  | Infinity => "Infinity"
  end.

(** An archive: its entries and the FST under the reader, if any. *)
Record far : Type := { entries : list (string * wfst); position : option wfst }.

Fixpoint lookup (key : string) (es : list (string * wfst)) : option wfst :=
  match es with
  | [] => None
  | (k, f) :: es' => if String.eqb key k then Some f else lookup key es'
  end.

Definition Far_find (a : far) (key : string) : bool * far :=
  match lookup key (entries a) with
  | Some f => (true, {| entries := entries a; position := Some f |})
  | None => (false, {| entries := entries a; position := None |})
  end.

Definition Far_get_fst (a : far) : wfst :=
  match position a with Some f => f | None => empty end.

(** One rule maps one input string to weighted output strings. *)
Definition rule (input : string) (outputs : list (string * Z)) : wfst :=
  {| nstates := trie_size (map (fun o => (input, fst o, Fin (snd o))) outputs)
                + Z.of_nat (String.length input);
     wpaths := map (fun o => (input, fst o, Fin (snd o))) outputs |}.

(** The archive ["rules.far"] of the examples; any other path names an
    empty archive. *)
Definition rules_far : list (string * wfst) :=
  [ ("a_to_b", rule "a" [("b", 0)]);
    ("b_to_c", rule "b" [("c", 0); ("c c", 1)]);
    ("c_to_d", rule "c" [("d", 0)]);
    ("tie", rule "a" [("x", 1); ("y", 1)]) ].

Definition Far_open (far_path : string) : far :=
  {| entries := if String.eqb far_path "rules.far" then rules_far else [];
     position := None |}.

#[export] Instance lib : Lib := {|
  pynini.Fst := wfst;
  pynini.Weight := tropical;
  pynini.TokenType := string;
  pynini.Far := far;
  pynini.float := tropical;
  pynini.float_lt := ltb;
  pynini.NO_STATE_ID := -1;
  pynini.compose := compose;
  pynini.start := start;
  pynini.num_states := nstates;
  pynini.weight_type := fun _ => "tropical";
  pynini.project := project;
  pynini.rmepsilon := rmepsilon;
  pynini.arcsort := arcsort;
  pynini.determinize := determinize;
  pynini.shortestpath := shortestpath;
  pynini.stringify := stringify;
  pynini.paths := paths;
  pynini.matches := matches;
  pynini.Weight_One := fun _ => Fin 0;
  pynini.Weight_Zero := fun _ => Infinity;
  pynini.Weight_str := Weight_str;
  pynini.Weight_float := fun w => w;
  pynini.Far_open := Far_open;
  pynini.Far_find := Far_find;
  pynini.Far_get_fst := Far_get_fst
|}.

End PathModel.


(* ------------------------------------------------------------------ *)
(** ** Reading a trace; what the specification's words mean here *)

Section Readings.
Context {L : Lib}.

(** The arguments of the [determinize] calls of a trace. *)
Definition determinize_calls (t : list event) : list (Fst * Z * Weight) :=
  flat_map
    (fun ev =>
       match ev with
       | Determinize f n w => [(f, n, w)]
       | _ => []
       end)
    t.

(** The messages logged, in order. *)
Definition warnings (t : list event) : list string :=
  flat_map (fun ev => match ev with Warning msg => [msg] | _ => [] end) t.

(** The keys looked up in the archive, in order. *)
Definition lookups (t : list event) : list string :=
  flat_map (fun ev => match ev with FarFind key => [key] | _ => [] end) t.

(** Does the event transform a lattice after composition? *)
Definition is_cleanup (ev : event) : bool :=
  match ev with
  | Project _ _ | Rmepsilon _ => true
  | _ => false
  end.

(** The composition filters a trace uses. *)
Definition filters (t : list event) : list string :=
  flat_map
    (fun ev =>
       match ev with
       | Compose _ _ cf | Matches _ _ cf => [cf]
       | _ => []
       end)
    t.

(** The rules composed with, in order: the second argument of each
    [compose] call. *)
Definition composed_rules (t : list event) : list Fst :=
  flat_map (fun ev => match ev with Compose _ r _ => [r] | _ => [] end) t.
End Readings.

(** The error kinds of the specification, read on the two exception
    classes and their messages. *)
Definition CompositionFailure : exn := RewriteError "Composition failure".
Definition NoRulesConfigured : exn := CascadeError "No rules requested".
Definition RuleNotFound (name : string) : exn :=
  CascadeError ("Cannot find rule: " +++ name).
Definition AmbiguousRewrite (first second weight : string) : exn :=
  RewriteError ("Multiple top rewrites found: " +++ first +++ " and "
                +++ second +++ " (weight: " +++ weight +++ ")").

Definition message (e : exn) : string :=
  match e with RewriteError msg | CascadeError msg => msg end.

(** An exception names a string when its message contains it. *)
Definition names (e : exn) (s : string) : bool := Py.contains s (message e).

(* ------------------------------------------------------------------ *)
(** ** The vocabulary of the statements *)

Section Vocabulary.
Context {L : Lib}.

Local Abbreviation M := (Eff.M event).

(** *** The bounded determinizer *)

(** The threshold and the cap [lattice_to_dfa] computes. *)
Definition weight_threshold (lattice : Fst) (optimal_only : bool) : Weight :=
  if optimal_only
  then Weight_One (weight_type lattice)
  else Weight_Zero (weight_type lattice).

Definition state_threshold (lattice : Fst) (state_multiplier : Z) : Z :=
  256 + state_multiplier * num_states lattice.

Definition cap_warning : string :=
  "Unexpected hit state threshold; consider a higher value for state_multiplier".

(** *** Paths and optimality *)

Definition item : Type := string * string * Weight.
Definition item_ostring (p : item) : string := snd (fst p).
Definition item_weight (p : item) : Weight := snd p.
Definition item_key (p : item) : float := Weight_float (item_weight p).


(** A path is optimal when no path of the lattice is lighter. *)
Definition optimal (ps : list item) (p : item) : Prop :=
  In p ps /\ forall q, In q ps -> float_lt (item_key q) (item_key p) = false.

(** An optimal-only lattice has optimal paths only. *)
Definition optimal_only (ps : list item) : Prop :=
  forall p, In p ps -> optimal ps p.


(** *** The archive and the cascade *)

(** What the code expects of an archive reader: there is a view of the
    archive's contents that lookups do not change; [find] answers whether
    the key is there and, when it is, leaves the reader on its FST. *)
Record FarLaws (contents : Far -> string -> option Fst) : Prop := {
  find_present : forall a key f,
    contents a key = Some f ->
    fst (Far_find a key) = true /\ Far_get_fst (snd (Far_find a key)) = f;
  find_absent : forall a key,
    contents a key = None -> fst (Far_find a key) = false;
  find_keeps : forall a key key',
    contents (snd (Far_find a key)) key' = contents a key'
}.

(** The names are all in the archive, with these FSTs. *)
Definition all_present (contents : Far -> string -> option Fst) (a : Far)
    (names : list string) (fs : list Fst) : Prop :=
  Forall2 (fun n f => contents a n = Some f) names fs.

(** Three single-rule rewrites by hand, each lattice the next input. *)
Definition by_hand (input : FstLike Fst) (r1 r2 r3 : Fst) : M Fst :=
  l1 <- rewrite.rewrite_lattice input r1 ;;
  l2 <- rewrite.rewrite_lattice (Acc l1) r2 ;;
  rewrite.rewrite_lattice (Acc l2) r3.

(** The history of a cascade: the object after some [set_rules] calls on a
    fresh one, and the names given to the last call that succeeded, if one
    did. *)
Definition history_step (st : rule_cascade.RuleCascade * option (list string))
    (names : list string) : rule_cascade.RuleCascade * option (list string) :=
  let r := rule_cascade.set_rules (fst st) names in
  (snd r,
   match result (fst r) with
   | Ok _ => Some names
   | _ => snd st
   end).

Definition after_calls (far_path : string) (calls : list (list string))
    : rule_cascade.RuleCascade * option (list string) :=
  fold_left history_step calls (rule_cascade.__init__ far_path, None).

(** No [set_rules] call has succeeded so far. *)
Definition before_any_successful_set_rules (far_path : string)
    (calls : list (list string)) : Prop :=
  snd (after_calls far_path calls) = None.

(** A computation that does not raise a [rule_cascade.Error]. *)
Definition never_cascade_error {A} (m : M A) : Prop :=
  forall msg, result m <> Raise (CascadeError msg).

(** *** Containment *)


(** *** Strings and weights *)

(** [strings_with_weights] as the specification words it: triples of the
    input labels, the output tokens and the weight as a number, sorted by
    weight.  To be compared with [rewrite.lattice_to_strings_and_weights]. *)
Definition spec_strings_with_weights (lattice : Fst)
    (input_token_type output_token_type : TokenType)
    : Eff.M event (Py.value float) :=
  lattice <- rewrite._check_nonempty_and_cleanup lattice ;;
  spaths <- perform (Paths lattice (output_token_type_arg output_token_type))
                    (paths lattice (output_token_type_arg output_token_type)) ;;
  let sorted_arpa :=
    Py.sorted float_lt (fun path => Weight_float (snd path)) spaths in
  ret (Py.VList
         (map (fun '(x, y, z) =>
                 Py.VTuple [Py.VStr x;
                            Py.VTuple (map Py.VStr (Py.split y));
                            Py.VFloat (Weight_float z)])
              sorted_arpa)).

(** The tuple of tokens the code builds for one path. *)
Definition tokens_of (p : item) : Py.value float :=
  Py.VTuple (map Py.VStr (Py.split (item_ostring p))).

(** *** Reading a result back *)

(** A computation all of whose compositions and containment tests use the
    [alt_sequence] filter. *)
Definition only_alt_sequence {A} (m : M A) : Prop :=
  Forall (eq "alt_sequence") (filters (trace m)).

(** The strings of a tuple, and the tuples of a list of tuples. *)
Definition strings_of (items : list (Py.value float)) : list string :=
  flat_map (fun v => match v with Py.VStr s => [s] | _ => [] end) items.

Definition tuples_of (v : Py.value float) : list (list string) :=
  match v with
  | Py.VList items =>
      flat_map
        (fun t => match t with Py.VTuple ws => [strings_of ws] | _ => [] end)
        items
  | _ => []
  end.

End Vocabulary.

(** A token: a string that is not empty and holds no whitespace. *)
Definition is_token (s : string) : bool :=
  negb (String.eqb s "")
  && forallb (fun c => negb (Py.isspace c)) (list_ascii_of_string s).

(** A string with its whitespace taken out. *)
Fixpoint without_whitespace (s : string) : string :=
  match s with
  | EmptyString => EmptyString
  | String c s' =>
      if Py.isspace c then without_whitespace s'
      else String c (without_whitespace s')
  end.

Section Order.
Context {A K : Type} (lt : K -> K -> bool) (key : A -> K).

(** [lt] is a strict weak order: two keys are never each below the other,
    and "not below" is transitive. *)
Definition strict_weak_order : Prop :=
  (forall a b, lt a b = true -> lt b a = false)
  /\ (forall a b c, lt a b = false -> lt b c = false -> lt a c = false).

(** [x] may come before [y]: the key of [y] is not below the key of [x]. *)
Definition not_after (x y : A) : Prop := lt (key y) (key x) = false.

(** The key [k] ties with the key of [x]: neither is below the other. *)
Definition tied (k : K) (x : A) : bool :=
  negb (lt k (key x)) && negb (lt (key x) k).

End Order.

Section PathModelViews.
Local Existing Instance PathModel.lib.

(** The archive's view of its contents. *)
Definition path_model_contents (a : Far) (key : string) : option Fst :=
  PathModel.lookup key (PathModel.entries a).


End PathModelViews.

(* ------------------------------------------------------------------ *)
(** ** The monad's equations *)

Section MonadLaws.
Context {E : Type}.

Lemma bind_ret_l {A B} (a : A) (k : A -> M E B) : bind (ret a) k = k a.
Proof. unfold bind, ret; simpl. now destruct (k a). Qed.

Lemma bind_perform {A B} (ev : E) (a : A) (k : A -> M E B) :
  bind (perform ev a) k = (fst (k a), ev :: snd (k a)).
Proof. reflexivity. Qed.

Lemma bind_raise {A B} (e : exn) (k : A -> M E B) :
  bind (raise e) k = raise e.
Proof. reflexivity. Qed.

Lemma bind_assoc {A B C} (m : M E A) (f : A -> M E B) (g : B -> M E C) :
  bind (bind m f) g = bind m (fun x => bind (f x) g).
Proof.
  destruct m as [[a | e |] t]; unfold bind; simpl; try reflexivity.
  destruct (f a) as [[b | e |] t']; simpl; try reflexivity.
  now rewrite app_assoc.
Qed.

Lemma bind_ret_r {A} (m : M E A) : bind m ret = m.
Proof.
  destruct m as [[a | e |] t]; unfold bind, ret; simpl;
    now rewrite ?app_nil_r.
Qed.

Lemma bind_ext {A B} (m : M E A) (f g : A -> M E B) :
  (forall a, f a = g a) -> bind m f = bind m g.
Proof.
  intros H. unfold bind. destruct (fst m); try reflexivity. now rewrite H.
Qed.

Lemma result_bind {A B} (m : M E A) (k : A -> M E B) :
  result (bind m k) =
    match result m with
    | Ok a => result (k a)
    | Raise e => Raise e
    | Undefined => Undefined
    end.
Proof. destruct m as [[a | e |] t]; reflexivity. Qed.

Lemma trace_bind {A B} (m : M E A) (k : A -> M E B) :
  trace (bind m k) =
    trace m ++ match result m with
               | Ok a => trace (k a)
               | _ => []
               end.
Proof.
  destruct m as [[a | e |] t]; unfold bind, trace; simpl;
    now rewrite ?app_nil_r.
Qed.
End MonadLaws.

(** Unfolds the monad on a goal whose computations are explicit. *)
Ltac eff_unfold :=
  unfold bind, perform, ret, raise, undefined, result, trace in *;
  cbn [fst snd] in *.

(* ------------------------------------------------------------------ *)
(** ** Building the lattice *)

Section RewriteLattice.
Context {L : Lib}.

Lemma check_nonempty_and_cleanup_eq (lattice : Fst) :
  rewrite._check_nonempty_and_cleanup lattice =
    if start lattice =? NO_STATE_ID
    then (Raise CompositionFailure, [Start lattice])
    else (Ok (rmepsilon (project lattice true)),
          [Start lattice; Project lattice true;
           Rmepsilon (project lattice true)]).
Proof.
  unfold rewrite._check_nonempty_and_cleanup.
  rewrite bind_perform.
  now destruct (start lattice =? NO_STATE_ID).
Qed.

Lemma rewrite_lattice_eq (input : FstLike Fst) (rule : Fst) :
  rewrite.rewrite_lattice input rule =
    let lattice := compose input rule "alt_sequence" in
    if start lattice =? NO_STATE_ID
    then (Raise CompositionFailure,
          [Compose input rule "alt_sequence"; Start lattice])
    else (Ok (rmepsilon (project lattice true)),
          [Compose input rule "alt_sequence"; Start lattice;
           Project lattice true; Rmepsilon (project lattice true)]).
Proof.
  unfold rewrite.rewrite_lattice.
  rewrite bind_perform, check_nonempty_and_cleanup_eq. cbv zeta.
  now destruct (start _ =? NO_STATE_ID).
Qed.

(** Whatever [rewrite_lattice] raises is the one composition failure. *)
Lemma rewrite_lattice_raises (input : FstLike Fst) (rule : Fst) (e : exn) :
  result (rewrite.rewrite_lattice input rule) = Raise e ->
  e = CompositionFailure.
Proof.
  rewrite rewrite_lattice_eq. cbv zeta.
  destruct (start _ =? NO_STATE_ID); simpl; congruence.
Qed.
End RewriteLattice.

(** C1, as amended.  [rewrite_lattice] composes the input with the rule
    under the [alt_sequence] filter and then asks for the start state.  It
    raises exactly when there is none, and what it raises is
    [Error("Composition failure")], the same for every input; otherwise it
    returns the composition projected on its output side with epsilons
    removed.  The start state is asked for before any projection or epsilon
    removal, and these two are called exactly when there is one. *)
Theorem rewrite_lattice_spec :
  forall (L : Lib) (input : FstLike Fst) (rule : Fst),
    let lattice := compose input rule "alt_sequence" in
    let run := rewrite.rewrite_lattice input rule in
    ((exists e, result run = Raise e) <-> start lattice = NO_STATE_ID)
    /\ result run =
         (if start lattice =? NO_STATE_ID
          then Raise (RewriteError "Composition failure")
          else Ok (rmepsilon (project lattice true)))
    /\ trace run =
         [Compose input rule "alt_sequence"; Start lattice]
         ++ (if start lattice =? NO_STATE_ID
             then []
             else [Project lattice true; Rmepsilon (project lattice true)])
    /\ existsb is_cleanup (trace run) = negb (start lattice =? NO_STATE_ID).
Proof.
  intros L input rule lattice run. subst run.
  rewrite rewrite_lattice_eq. cbv zeta. fold lattice.
  destruct (Z.eqb_spec (start lattice) NO_STATE_ID) as [Heq | Hne]; simpl.
  - repeat split; auto. now exists CompositionFailure.
  - repeat split; try tauto.
    intros [e He]. discriminate.
Qed.

Section OnPathModel_C1.
Local Existing Instance PathModel.lib.

(** C1, as stated, fails: composing ["b"] with a rule that rewrites only
    ["a"] leaves no start state, and the exception raised does not name
    ["b"]. *)
Lemma rewrite_lattice_error_does_not_name_input :
  let rule : Fst := PathModel.rule "a" [("p", 0)] in
  let run := rewrite.rewrite_lattice (Str "b") rule in
  start (compose (Str "b") rule "alt_sequence") = NO_STATE_ID
  /\ exists e, result run = Raise e /\ names e "b" = false.
Proof.
  split; [reflexivity |].
  exists CompositionFailure. split; reflexivity.
Qed.

End OnPathModel_C1.

(* ------------------------------------------------------------------ *)
(** ** The bounded determinizer *)

Section LatticeToDfa.
Context {L : Lib}.

Lemma lattice_to_dfa_eq (lattice : Fst) (optimal_only : bool) (sm : Z) :
  rewrite.lattice_to_dfa lattice optimal_only sm =
    let w := weight_threshold lattice optimal_only in
    let cap := state_threshold lattice sm in
    let dfa := determinize lattice cap w in
    (Ok dfa,
     [WeightType lattice;
      if optimal_only then One (weight_type lattice)
      else Zero (weight_type lattice);
      NumStates lattice;
      Determinize lattice cap w;
      NumStates dfa]
     ++ (if num_states dfa =? cap then [Warning cap_warning] else [])).
Proof.
  unfold rewrite.lattice_to_dfa, weight_threshold, state_threshold.
  cbv zeta. rewrite bind_perform.
  destruct optimal_only; rewrite !bind_perform;
    match goal with |- context [?a =? ?b] => destruct (a =? b) end;
    reflexivity.
Qed.

Lemma lattice_to_dfa_result (lattice : Fst) (optimal_only : bool) (sm : Z) :
  result (rewrite.lattice_to_dfa lattice optimal_only sm) =
    Ok (determinize lattice (state_threshold lattice sm)
                    (weight_threshold lattice optimal_only)).
Proof. now rewrite lattice_to_dfa_eq. Qed.
End LatticeToDfa.

(** C4.  [lattice_to_dfa] calls [determinize] once, on the lattice it was
    given, and the weight threshold of that call is [Weight.One] of the
    lattice's weight type when [optimal_only] is true and [Weight.Zero] of
    it when [optimal_only] is false; the DFA returned is the result of that
    call.  (That the first threshold keeps the optimal paths only and the
    second keeps every path is the library's reading of the two
    thresholds.) *)
Theorem lattice_to_dfa_weight_threshold :
  forall (L : Lib) (lattice : Fst) (state_multiplier : Z),
    let wt := weight_type lattice in
    let cap := 256 + state_multiplier * num_states lattice in
    let pruned := rewrite.lattice_to_dfa lattice true state_multiplier in
    let full := rewrite.lattice_to_dfa lattice false state_multiplier in
    determinize_calls (trace pruned) = [(lattice, cap, Weight_One wt)]
    /\ result pruned = Ok (determinize lattice cap (Weight_One wt))
    /\ determinize_calls (trace full) = [(lattice, cap, Weight_Zero wt)]
    /\ result full = Ok (determinize lattice cap (Weight_Zero wt)).
Proof.
  intros L lattice sm wt cap pruned full. subst pruned full.
  rewrite !lattice_to_dfa_eq. cbv zeta.
  unfold weight_threshold, state_threshold. fold wt cap.
  repeat split; unfold trace, determinize_calls; simpl;
    match goal with |- context [?a =? ?b] => destruct (a =? b) end;
    reflexivity.
Qed.

(** C5.  [lattice_to_dfa] runs [determinize] with the state cap
    [256 + state_multiplier * lattice.num_states()]; it logs its warning,
    once, exactly when the result has as many states as the cap; and in
    every case it returns the determinized result: it never raises. *)
Theorem lattice_to_dfa_state_cap :
  forall (L : Lib) (lattice : Fst) (optimal_only : bool)
         (state_multiplier : Z),
    let cap := 256 + state_multiplier * num_states lattice in
    let w := if optimal_only then Weight_One (weight_type lattice)
             else Weight_Zero (weight_type lattice) in
    let run := rewrite.lattice_to_dfa lattice optimal_only state_multiplier in
    determinize_calls (trace run) = [(lattice, cap, w)]
    /\ result run = Ok (determinize lattice cap w)
    /\ warnings (trace run) =
         (if num_states (determinize lattice cap w) =? cap
          then ["Unexpected hit state threshold; consider a higher value for state_multiplier"]
          else [])
    /\ (In (Warning "Unexpected hit state threshold; consider a higher value for state_multiplier")
           (trace run)
        <-> num_states (determinize lattice cap w) = cap).
Proof.
  intros L lattice oo sm cap w run. subst run.
  rewrite lattice_to_dfa_eq. cbv zeta.
  unfold state_threshold, weight_threshold. fold cap w.
  set (dfa := determinize lattice cap w).
  unfold trace, result, determinize_calls, warnings. simpl.
  destruct (Z.eqb_spec (num_states dfa) cap) as [Heq | Hne];
    destruct oo; simpl; repeat split; auto; try tauto;
    intros H; repeat (destruct H as [H | H]; try discriminate H); tauto.
Qed.

(* ------------------------------------------------------------------ *)
(** ** One top string, with tie detection *)

Section OneTopString.
Context {L : Lib}.

Lemma one_top_string_eq (lattice : Fst) (token_type : TokenType) :
  rewrite.lattice_to_one_top_string lattice token_type =
    (match paths lattice (positional token_type) with
     | [] => Undefined
     | [(_, output, _)] => Ok output
     | (_, output, _) :: (_, second, w) :: _ =>
         Raise (AmbiguousRewrite output second (Weight_str w))
     end,
     [Paths lattice (positional token_type)]).
Proof.
  unfold rewrite.lattice_to_one_top_string. rewrite bind_perform.
  destruct (paths lattice (positional token_type))
    as [| [[i1 o1] w1] [| [[i2 o2] w2] rest]]; reflexivity.
Qed.

(** What [lattice_to_one_top_string] raises is a [rewrite.Error]. *)
Lemma one_top_string_raises lattice token_type (e : exn) :
  result (rewrite.lattice_to_one_top_string lattice token_type) = Raise e ->
  exists msg, e = RewriteError msg.
Proof.
  rewrite one_top_string_eq. unfold result; simpl.
  destruct (paths lattice (positional token_type))
    as [| [[i1 o1] w1] [| [[i2 o2] w2] rest]];
    intros H; inversion H. eexists; reflexivity.
Qed.

End OneTopString.

(** Containment of one argument of [str.format] in the message built. *)
Lemma contains_prefix (s t : string) : Py.contains s (s +++ t) = true.
Proof.
  assert (H : String.prefix s (s +++ t) = true).
  { induction s as [| c s IH]; simpl.
    - now destruct t.
    - destruct (Ascii.ascii_dec c c); [assumption | contradiction]. }
  destruct s; simpl in *.
  - now destruct t.
  - now rewrite H.
Qed.

Lemma contains_append_l (s a t : string) :
  Py.contains s t = true -> Py.contains s (a +++ t) = true.
Proof.
  intros H. induction a as [| c a IH]; simpl; [assumption |].
  rewrite IH. apply orb_true_r.
Qed.



(* ------------------------------------------------------------------ *)
(** ** Configuring a cascade *)

Section SetRules.
Context {L : Lib}.

Lemma validate_cons (a : Far) (rule : string) (names : list string) :
  rule_cascade._validate_and_arcsort_rules a (rule :: names) =
    let a1 := snd (Far_find a rule) in
    if fst (Far_find a rule) then
      let rest := rule_cascade._validate_and_arcsort_rules a1 names in
      (perform (FarFind rule) tt ;;
       f <- perform FarGetFst (Far_get_fst a1) ;;
       r <- perform (Arcsort f "ilabel") (arcsort f "ilabel") ;;
       rs <- fst rest ;;
       ret (r :: rs),
       snd rest)
    else
      (perform (FarFind rule) tt ;; raise (RuleNotFound rule), a1).
Proof.
  simpl. destruct (Far_find a rule) as [[|] a1]; simpl; [| reflexivity].
  now destruct (rule_cascade._validate_and_arcsort_rules a1 names).
Qed.

Lemma lookups_app (t1 t2 : list event) :
  lookups (t1 ++ t2) = lookups t1 ++ lookups t2.
Proof. apply flat_map_app. Qed.

(** The generator yields as many rules as it was given names. *)
Lemma validate_length (names : list string) : forall (a : Far) rs,
  result (fst (rule_cascade._validate_and_arcsort_rules a names)) = Ok rs ->
  List.length rs = List.length names.
Proof.
  induction names as [| n names IH]; intros a rs.
  - simpl. intros H; inversion H. reflexivity.
  - rewrite validate_cons. cbv zeta.
    specialize (IH (snd (Far_find a n))).
    destruct (fst (Far_find a n)); [| discriminate].
    destruct (rule_cascade._validate_and_arcsort_rules _ names)
      as [[[rs' | e' |] t'] a']; eff_unfold; try discriminate.
    intros H; inversion H; subst. simpl. f_equal. now apply IH.
Qed.

(** What the generator raises is a missing rule. *)
Lemma validate_raises (names : list string) : forall (a : Far) e,
  result (fst (rule_cascade._validate_and_arcsort_rules a names)) = Raise e ->
  exists n, In n names /\ e = RuleNotFound n.
Proof.
  induction names as [| n names IH]; intros a e.
  - simpl. discriminate.
  - rewrite validate_cons. cbv zeta.
    specialize (IH (snd (Far_find a n))).
    destruct (fst (Far_find a n)).
    + destruct (rule_cascade._validate_and_arcsort_rules _ names)
        as [[[rs' | e' |] t'] a']; eff_unfold; try discriminate.
      intros H; inversion H; subst.
      destruct (IH e eq_refl) as [m [Hin ->]]. exists m. split; auto.
      now right.
    + eff_unfold. intros H; inversion H. exists n. split; auto. now left.
Qed.

Lemma validate_defined (names : list string) : forall (a : Far),
  result (fst (rule_cascade._validate_and_arcsort_rules a names))
  <> Undefined.
Proof.
  induction names as [| n names IH]; intros a.
  - discriminate.
  - rewrite validate_cons. cbv zeta.
    specialize (IH (snd (Far_find a n))).
    destruct (fst (Far_find a n)).
    + destruct (rule_cascade._validate_and_arcsort_rules _ names)
        as [[[rs' | e' |] t'] a']; eff_unfold;
        [discriminate | discriminate | contradiction].
    + discriminate.
Qed.

Section WithLaws.
Variable contents : Far -> string -> option Fst.
Hypothesis laws : FarLaws contents.

Lemma all_present_after_find a key names fs :
  all_present contents a names fs ->
  all_present contents (snd (Far_find a key)) names fs.
Proof.
  unfold all_present. induction 1; constructor; auto.
  now rewrite (find_keeps _ laws).
Qed.

(** Every name present: the generator yields the archive's FSTs,
    arc-sorted by input label, in the order of the names, after one lookup
    per name. *)
Lemma validate_all_present (names : list string) : forall (a : Far) fs,
  all_present contents a names fs ->
  let gen := fst (rule_cascade._validate_and_arcsort_rules a names) in
  result gen = Ok (map (fun f => arcsort f "ilabel") fs)
  /\ lookups (trace gen) = names.
Proof.
  induction names as [| n names IH]; intros a fs Hall; inversion Hall; subst.
  - split; reflexivity.
  - rewrite validate_cons. cbv zeta.
    destruct (find_present _ laws a n y H1) as [-> ->].
    destruct (IH (snd (Far_find a n)) l') as [Hres Hlook].
    { now apply all_present_after_find. }
    destruct (rule_cascade._validate_and_arcsort_rules _ names)
      as [[[rs' | e' |] t'] a']; eff_unfold; try discriminate.
    inversion Hres; subst. split; [reflexivity |].
    rewrite app_nil_r. reflexivity.
Qed.

(** A missing name after present ones: the generator raises on it, having
    looked up the names before it and that one, and none after. *)
Lemma validate_first_missing (found : list string) :
  forall (a : Far) fs bad rest,
    all_present contents a found fs ->
    contents a bad = None ->
    let gen := fst (rule_cascade._validate_and_arcsort_rules
                      a (found ++ bad :: rest)) in
    result gen = Raise (RuleNotFound bad)
    /\ lookups (trace gen) = found ++ [bad].
Proof.
  induction found as [| n found IH]; intros a fs bad rest Hall Hbad;
    inversion Hall; subst.
  - cbn [app]. rewrite validate_cons. cbv zeta.
    rewrite (find_absent _ laws a bad Hbad). split; reflexivity.
  - rewrite <- app_comm_cons, validate_cons. cbv zeta.
    destruct (find_present _ laws a n y H1) as [-> ->].
    destruct (IH (snd (Far_find a n)) l' bad rest) as [Hres Hlook].
    { now apply all_present_after_find. }
    { now rewrite (find_keeps _ laws). }
    destruct (rule_cascade._validate_and_arcsort_rules _ (found ++ _))
      as [[[rs' | e' |] t'] a']; eff_unfold; try discriminate.
    inversion Hres; subst. split; [reflexivity |].
    simpl. now rewrite Hlook.
Qed.
End WithLaws.

Lemma set_rules_eq (self : rule_cascade.RuleCascade) (names : list string) :
  rule_cascade.set_rules self names =
    let gen := rule_cascade._validate_and_arcsort_rules
                 (rule_cascade.far self) names in
    ((match result (fst gen) with
      | Ok _ => Ok tt
      | Raise e => Raise e
      | Undefined => Undefined
      end, trace (fst gen)),
     {| rule_cascade.far := snd gen;
        rule_cascade.rules :=
          match result (fst gen) with
          | Ok rs => rs
          | _ => rule_cascade.rules self
          end |}).
Proof.
  unfold rule_cascade.set_rules.
  destruct (rule_cascade._validate_and_arcsort_rules _ names)
    as [[[rs | e |] t] a']; reflexivity.
Qed.
End SetRules.

(** [set_rules] ends in one of two ways: it succeeds, or it raises for a
    name of the list that the archive does not have. *)
Lemma set_rules_outcome {L : Lib} (self : rule_cascade.RuleCascade)
    (names : list string) :
  result (fst (rule_cascade.set_rules self names)) = Ok tt
  \/ exists n, In n names
              /\ result (fst (rule_cascade.set_rules self names))
                 = Raise (RuleNotFound n).
Proof.
  rewrite set_rules_eq. cbv zeta. cbn [fst]. unfold result at 1 3. cbn [fst].
  pose proof (validate_raises names (rule_cascade.far self)) as Hraise.
  pose proof (validate_defined names (rule_cascade.far self)) as Hdef.
  destruct (result (fst (rule_cascade._validate_and_arcsort_rules _ names)))
    as [rs | e |].
  - now left.
  - right. destruct (Hraise e eq_refl) as [n [Hin ->]]. now exists n.
  - contradiction.
Qed.

(** C6.  [set_rules] either succeeds or raises
    [Error("Cannot find rule: <name>")] for a name it was given.  For an
    archive reader that behaves as [FarLaws] says:
    - when every name is in the archive, [set_rules] succeeds after looking
      the names up in order, one lookup each, and the rule sequence becomes
      the archive's FSTs for these names, each arc-sorted by input label,
      whatever the sequence was before;
    - when a name is missing, the names before it being present,
      [set_rules] raises for that first missing name, its message naming
      it, and it has looked up the names up to that one and none of those
      after it. *)
Theorem set_rules_spec :
  forall (L : Lib) (contents : Far -> string -> option Fst),
    FarLaws contents ->
    forall self : rule_cascade.RuleCascade,
      (forall names,
          let r := rule_cascade.set_rules self names in
          result (fst r) = Ok tt
          \/ exists n, In n names
                      /\ result (fst r)
                         = Raise (CascadeError ("Cannot find rule: " +++ n)))
      /\ (forall names fs,
             all_present contents (rule_cascade.far self) names fs ->
             let r := rule_cascade.set_rules self names in
             result (fst r) = Ok tt
             /\ rule_cascade.rules (snd r)
                = map (fun f => arcsort f "ilabel") fs
             /\ lookups (trace (fst r)) = names)
      /\ (forall found fs bad rest,
             all_present contents (rule_cascade.far self) found fs ->
             contents (rule_cascade.far self) bad = None ->
             let r := rule_cascade.set_rules self (found ++ bad :: rest) in
             result (fst r) = Raise (CascadeError ("Cannot find rule: " +++ bad))
             /\ names (CascadeError ("Cannot find rule: " +++ bad)) bad = true
             /\ lookups (trace (fst r)) = found ++ [bad]).
Proof.
  intros L contents laws self. split; [| split].
  - intros names r. apply set_rules_outcome.
  - intros names fs Hall r. subst r. rewrite set_rules_eq. cbv zeta.
    destruct (validate_all_present contents laws names _ fs Hall)
      as [Hres Hlook].
    cbn [fst snd rule_cascade.rules]. unfold result at 1. cbn [fst].
    rewrite Hres. unfold trace at 1. cbn [snd]. auto.
  - intros found fs bad rest Hall Hbad r. subst r.
    rewrite set_rules_eq. cbv zeta.
    destruct (validate_first_missing contents laws found _ fs bad rest
                Hall Hbad) as [Hres Hlook].
    cbn [fst snd]. unfold result at 1. cbn [fst].
    rewrite Hres. unfold trace at 1. cbn [snd].
    repeat split; auto.
    apply (contains_append_l bad "Cannot find rule: ").
    rewrite <- (contains_prefix bad ""). f_equal.
    clear. induction bad; simpl; congruence.
Qed.

(** When [set_rules] does not succeed, the rule sequence is kept. *)
Lemma failed_set_rules_keeps_rules {L : Lib} (self : rule_cascade.RuleCascade)
    (names : list string) :
  result (fst (rule_cascade.set_rules self names)) <> Ok tt ->
  rule_cascade.rules (snd (rule_cascade.set_rules self names))
  = rule_cascade.rules self.
Proof.
  rewrite set_rules_eq. cbv zeta.
  cbn [fst snd rule_cascade.rules]. unfold result at 1. cbn [fst].
  destruct (result (fst (rule_cascade._validate_and_arcsort_rules _ names)));
    [congruence | reflexivity | reflexivity].
Qed.

(** C10.  When [set_rules] raises, the rule sequence of the cascade is the
    one it had before the call: the whole tuple is built before the
    assignment, and the assignment is not reached. *)
Theorem set_rules_failure_keeps_rules :
  forall (L : Lib) (self : rule_cascade.RuleCascade) (names : list string)
         (e : exn),
    result (fst (rule_cascade.set_rules self names)) = Raise e ->
    rule_cascade.rules (snd (rule_cascade.set_rules self names))
    = rule_cascade.rules self.
Proof.
  intros L self names e H. apply failed_set_rules_keeps_rules.
  rewrite H. discriminate.
Qed.

(* ------------------------------------------------------------------ *)
(** ** Rewriting with a cascade *)

Section CascadeRewrite.
Context {L : Lib}.

Local Abbreviation M := (Eff.M event).

Lemma never_bind {A B} (m : M A) (k : A -> M B) :
  never_cascade_error m -> (forall a, never_cascade_error (k a)) ->
  never_cascade_error (bind m k).
Proof.
  intros Hm Hk msg. rewrite result_bind.
  specialize (Hm msg). revert Hm. destruct (result m) as [a | e |];
    intros Hm; [apply Hk | intros H; apply Hm; congruence | discriminate].
Qed.

Lemma never_perform {A} (ev : event) (a : A) :
  never_cascade_error (perform ev a).
Proof. intros msg; discriminate. Qed.

Lemma never_ret {A} (a : A) : never_cascade_error (ret a).
Proof. intros msg; discriminate. Qed.

Lemma never_rewrite_lattice input rule :
  never_cascade_error (rewrite.rewrite_lattice input rule).
Proof.
  intros msg H. apply rewrite_lattice_raises in H. discriminate.
Qed.

Lemma never_thread (rs : list Fst) : forall lattice,
  never_cascade_error (rule_cascade.thread lattice rs).
Proof.
  induction rs as [| r rs IH]; intros lattice; simpl.
  - apply never_ret.
  - apply never_bind; [apply never_rewrite_lattice | apply IH].
Qed.

Lemma never_lattice_to_dfa lattice oo sm :
  never_cascade_error (rewrite.lattice_to_dfa lattice oo sm).
Proof. intros msg. rewrite lattice_to_dfa_result. discriminate. Qed.

Lemma never_one_top_string lattice tt :
  never_cascade_error (rewrite.lattice_to_one_top_string lattice tt).
Proof.
  intros msg H. apply one_top_string_raises in H as [m H]. discriminate.
Qed.

Lemma never_lattice_to_strings lattice tt :
  never_cascade_error (rewrite.lattice_to_strings lattice tt).
Proof. intros msg; discriminate. Qed.

(** [_rewrite_lattice] raises its own error on an empty rule sequence and
    never on another. *)
Lemma rewrite_lattice_no_rules (self : rule_cascade.RuleCascade) input :
  rule_cascade.rules self = [] ->
  rule_cascade._rewrite_lattice self input = raise NoRulesConfigured.
Proof. unfold rule_cascade._rewrite_lattice. now intros ->. Qed.

Lemma rewrite_lattice_some_rules (self : rule_cascade.RuleCascade) input :
  rule_cascade.rules self <> [] ->
  never_cascade_error (rule_cascade._rewrite_lattice self input).
Proof.
  unfold rule_cascade._rewrite_lattice.
  destruct (rule_cascade.rules self) as [| r rs]; [contradiction |].
  intros _. apply never_bind; [apply never_rewrite_lattice |].
  intros l. apply never_thread.
Qed.

(** Every composition of a cascade rewrite uses the [alt_sequence]
    filter. *)
Lemma rewrite_lattice_filters input rule :
  Forall (eq "alt_sequence")
         (filters (trace (rewrite.rewrite_lattice input rule))).
Proof.
  rewrite rewrite_lattice_eq. cbv zeta.
  destruct (start _ =? NO_STATE_ID); repeat constructor.
Qed.

Lemma thread_filters (rs : list Fst) : forall lattice,
  Forall (eq "alt_sequence")
         (filters (trace (rule_cascade.thread lattice rs))).
Proof.
  induction rs as [| r rs IH]; intros lattice; simpl.
  - constructor.
  - rewrite trace_bind. unfold filters. rewrite flat_map_app.
    apply Forall_app. split; [apply rewrite_lattice_filters |].
    destruct (result _); try constructor. apply IH.
Qed.

Lemma cascade_filters (self : rule_cascade.RuleCascade) input :
  Forall (eq "alt_sequence")
         (filters (trace (rule_cascade._rewrite_lattice self input))).
Proof.
  unfold rule_cascade._rewrite_lattice.
  destruct (rule_cascade.rules self) as [| r rs]; [constructor |].
  rewrite trace_bind. unfold filters. rewrite flat_map_app.
  apply Forall_app. split; [apply rewrite_lattice_filters |].
  destruct (result _); try constructor. apply thread_filters.
Qed.

(** A method that starts with [_rewrite_lattice] and goes on without
    raising a cascade error raises [NoRulesConfigured] exactly on an empty
    rule sequence. *)
Lemma method_no_rules {A} (self : rule_cascade.RuleCascade) input
    (k : Fst -> M A) :
  (forall l, never_cascade_error (k l)) ->
  result (bind (rule_cascade._rewrite_lattice self input) k)
    = Raise NoRulesConfigured
  <-> rule_cascade.rules self = [].
Proof.
  intros Hk. split.
  - intros H. destruct (rule_cascade.rules self) as [| r rs] eqn:E; auto.
    exfalso.
    apply (never_bind (rule_cascade._rewrite_lattice self input) k)
      with (msg := "No rules requested"); auto.
    apply rewrite_lattice_some_rules. rewrite E. discriminate.
  - intros H. now rewrite rewrite_lattice_no_rules.
Qed.

(** A successful [set_rules] stores one rule per name. *)
Lemma set_rules_length (self : rule_cascade.RuleCascade) names :
  result (fst (rule_cascade.set_rules self names)) = Ok tt ->
  List.length (rule_cascade.rules (snd (rule_cascade.set_rules self names)))
  = List.length names.
Proof.
  rewrite set_rules_eq. cbv zeta.
  cbn [fst snd rule_cascade.rules]. unfold result at 1. cbn [fst].
  destruct (result (fst (rule_cascade._validate_and_arcsort_rules _ names)))
    eqn:E; try discriminate.
  intros _. eapply validate_length. exact E.
Qed.

(** After any history, the rule sequence is empty exactly when no call
    succeeded or the last one that did was given no name. *)
Lemma rules_after_calls (far_path : string) (calls : list (list string)) :
  rule_cascade.rules (fst (after_calls far_path calls)) = []
  <-> snd (after_calls far_path calls) = None
      \/ snd (after_calls far_path calls) = Some [].
Proof.
  unfold after_calls.
  set (st0 := (rule_cascade.__init__ far_path, @None (list string))).
  assert (H0 : rule_cascade.rules (fst st0) = []
               <-> snd st0 = None \/ snd st0 = Some []).
  { simpl. tauto. }
  revert H0. generalize st0. clear st0.
  induction calls as [| names calls IH]; intros st H0; simpl; auto.
  apply IH. unfold history_step. cbn [fst snd].
  pose proof (set_rules_length (fst st) names) as Hlen.
  pose proof (failed_set_rules_keeps_rules (fst st) names) as Hkeep.
  destruct (result (fst (rule_cascade.set_rules (fst st) names)))
    as [[] | e |] eqn:E.
  - specialize (Hlen eq_refl).
    destruct (rule_cascade.rules (snd (rule_cascade.set_rules (fst st) names)));
      destruct names; simpl in Hlen; try discriminate.
    + split; auto.
    + split; [discriminate | intros [H | H]; discriminate].
  - rewrite Hkeep; [assumption | discriminate].
  - rewrite Hkeep; [assumption | discriminate].
Qed.
End CascadeRewrite.

(** C3.  Let the three names be in the archive, with FSTs [f1], [f2] and
    [f3].  [set_rules] on these names succeeds, and on the cascade it
    leaves, the rewrite operation is the same computation (same outcome,
    same library calls) as three calls of the single-rule [rewrite_lattice]
    by hand on the stored rules, each lattice threaded as the next input.
    Hence every extraction mode gives on the cascade what it gives on the
    lattice threaded by hand. *)
Theorem cascade_of_three_is_threading :
  forall (L : Lib) (contents : Far -> string -> option Fst),
    FarLaws contents ->
    forall (self : rule_cascade.RuleCascade) (n1 n2 n3 : string)
           (f1 f2 f3 : Fst),
      contents (rule_cascade.far self) n1 = Some f1 ->
      contents (rule_cascade.far self) n2 = Some f2 ->
      contents (rule_cascade.far self) n3 = Some f3 ->
      let configured := rule_cascade.set_rules self [n1; n2; n3] in
      let cascade := snd configured in
      let r1 := arcsort f1 "ilabel" in
      let r2 := arcsort f2 "ilabel" in
      let r3 := arcsort f3 "ilabel" in
      result (fst configured) = Ok tt
      /\ rule_cascade.rules cascade = [r1; r2; r3]
      /\ forall input : FstLike Fst,
          let threaded := by_hand input r1 r2 r3 in
          rule_cascade._rewrite_lattice cascade input = threaded
          /\ (forall tt,
                 rule_cascade.top_rewrite cascade input tt
                 = (l <- threaded ;; rewrite.lattice_to_top_string l tt))
          /\ (forall tt sm,
                 rule_cascade.one_top_rewrite cascade input tt sm
                 = (l <- threaded ;;
                    d <- rewrite.lattice_to_dfa l true sm ;;
                    rewrite.lattice_to_one_top_string d tt))
          /\ (forall tt sm,
                 rule_cascade.rewrites cascade input tt sm
                 = (l <- threaded ;;
                    d <- rewrite.lattice_to_dfa l false sm ;;
                    rewrite.lattice_to_strings d tt))
          /\ (forall n tt,
                 rule_cascade.top_rewrites cascade input n tt
                 = (l <- threaded ;;
                    s <- rewrite.lattice_to_shortest l n ;;
                    rewrite.lattice_to_strings s tt))
          /\ (forall tt sm,
                 rule_cascade.optimal_rewrites cascade input tt sm
                 = (l <- threaded ;;
                    d <- rewrite.lattice_to_dfa l true sm ;;
                    rewrite.lattice_to_strings d tt))
          /\ (forall expected,
                 rule_cascade.matches cascade input expected
                 = (l <- threaded ;;
                    perform (Matches l expected "alt_sequence")
                            (matches l expected "alt_sequence"))).
Proof.
  intros L contents laws self n1 n2 n3 f1 f2 f3 H1 H2 H3
         configured cascade r1 r2 r3.
  assert (Hall : all_present contents (rule_cascade.far self)
                   [n1; n2; n3] [f1; f2; f3]).
  { repeat constructor; assumption. }
  destruct (validate_all_present contents laws _ _ _ Hall) as [Hres _].
  assert (Hrules : result (fst configured) = Ok tt
                   /\ rule_cascade.rules cascade = [r1; r2; r3]).
  { subst cascade configured. rewrite set_rules_eq. cbv zeta.
    cbn [fst snd rule_cascade.rules]. unfold result at 1. cbn [fst].
    rewrite Hres. split; reflexivity. }
  destruct Hrules as [Hok Hrules].
  split; [exact Hok | split; [exact Hrules |]].
  intros input threaded.
  assert (Hthread : rule_cascade._rewrite_lattice cascade input = threaded).
  { unfold rule_cascade._rewrite_lattice. rewrite Hrules.
    subst threaded. unfold by_hand. apply bind_ext. intros l1.
    cbn [rule_cascade.thread]. apply bind_ext. intros l2.
    apply bind_ret_r. }
  unfold rule_cascade.top_rewrite, rule_cascade.one_top_rewrite,
    rule_cascade.rewrites, rule_cascade.top_rewrites,
    rule_cascade.optimal_rewrites, rule_cascade.matches.
  rewrite Hthread. repeat split.
Qed.

(** C7, as amended.  The cascade rewrite operation, and each method built
    on it, raises [Error("No rules requested")] if and only if the rule
    sequence of the cascade is empty; and after any history of [set_rules]
    calls on a fresh cascade the sequence is empty exactly when no call has
    succeeded yet or the last call that succeeded was given no name. *)
Theorem no_rules_configured_spec :
  forall (L : Lib) (self : rule_cascade.RuleCascade) (input : FstLike Fst),
    let unconfigured := rule_cascade.rules self = [] in
    let no_rules {A} (m : Eff.M event A) :=
      result m = Raise (CascadeError "No rules requested") in
    (no_rules (rule_cascade._rewrite_lattice self input) <-> unconfigured)
    /\ (forall tt,
           no_rules (rule_cascade.top_rewrite self input tt) <-> unconfigured)
    /\ (forall tt sm,
           no_rules (rule_cascade.one_top_rewrite self input tt sm)
           <-> unconfigured)
    /\ (forall tt sm,
           no_rules (rule_cascade.rewrites self input tt sm) <-> unconfigured)
    /\ (forall n tt,
           no_rules (rule_cascade.top_rewrites self input n tt)
           <-> unconfigured)
    /\ (forall tt sm,
           no_rules (rule_cascade.optimal_rewrites self input tt sm)
           <-> unconfigured)
    /\ (forall expected,
           no_rules (rule_cascade.matches self input expected)
           <-> unconfigured)
    /\ (forall far_path calls,
           rule_cascade.rules (fst (after_calls far_path calls)) = []
           <-> snd (after_calls far_path calls) = None
               \/ snd (after_calls far_path calls) = Some []).
Proof.
  intros L self input unconfigured no_rules. subst no_rules unconfigured.
  cbv beta.
  split; [| split; [| split; [| split; [| split; [| split; [| split]]]]]].
  - rewrite <- (bind_ret_r (rule_cascade._rewrite_lattice self input)).
    apply method_no_rules. intros l. apply never_ret.
  - intros tt. apply method_no_rules. intros l.
    apply never_bind; intros; apply never_perform.
  - intros tt sm. apply method_no_rules. intros l.
    apply never_bind; intros;
      [apply never_lattice_to_dfa | apply never_one_top_string].
  - intros tt sm. apply method_no_rules. intros l.
    apply never_bind; intros;
      [apply never_lattice_to_dfa | apply never_lattice_to_strings].
  - intros n tt. apply method_no_rules. intros l.
    apply never_bind; intros;
      [apply never_perform | apply never_lattice_to_strings].
  - intros tt sm. apply method_no_rules. intros l.
    apply never_bind; intros;
      [apply never_lattice_to_dfa | apply never_lattice_to_strings].
  - intros expected. apply method_no_rules. intros l. apply never_perform.
  - apply rules_after_calls.
Qed.

Section OnPathModel_C7.
Local Existing Instance PathModel.lib.

(** C7, as stated, fails: [set_rules([])] succeeds and leaves the rule
    sequence empty, so a rewrite raises [Error("No rules requested")] although
    a [set_rules] call has succeeded before it. *)
Lemma no_rules_after_successful_set_rules :
  let fresh := rule_cascade.__init__ "rules.far" in
  let cascade := fst (after_calls "rules.far" [[]]) in
  result (fst (rule_cascade.set_rules fresh [])) = Ok tt
  /\ cascade = snd (rule_cascade.set_rules fresh [])
  /\ result (rule_cascade._rewrite_lattice cascade (Str "a"))
     = Raise NoRulesConfigured
  /\ ~ before_any_successful_set_rules "rules.far" [[]].
Proof.
  repeat split. unfold before_any_successful_set_rules. discriminate.
Qed.

End OnPathModel_C7.

(* ------------------------------------------------------------------ *)
(** ** Containment *)

Section Matches.
Context {L : Lib}.


End Matches.


(* ------------------------------------------------------------------ *)
(** ** Strings sorted by weight *)

Section StableSort.
Context {A K : Type} (lt : K -> K -> bool) (key : A -> K).

Lemma insert_by_perm (x : A) (l : list A) :
  Permutation (x :: l) (Py.insert_by lt key x l).
Proof.
  induction l as [| y l IH]; simpl; auto.
  destruct (lt (key y) (key x)); auto.
  rewrite perm_swap. now constructor.
Qed.

Lemma sorted_perm (l : list A) : Permutation l (Py.sorted lt key l).
Proof.
  induction l as [| x l IH]; simpl; auto.
  rewrite <- insert_by_perm. now constructor.
Qed.

Hypothesis order : strict_weak_order lt.

Lemma insert_by_sorted (x : A) (l : list A) :
  StronglySorted (not_after lt key) l ->
  StronglySorted (not_after lt key) (Py.insert_by lt key x l).
Proof.
  destruct order as [asym trans].
  induction 1 as [| y l Hl IH Hy]; simpl.
  - repeat constructor.
  - destruct (lt (key y) (key x)) eqn:E.
    + constructor; auto.
      apply (Permutation_Forall (insert_by_perm x l)).
      constructor; auto. unfold not_after. now apply asym.
    + constructor; [now constructor |].
      constructor; [exact E |].
      eapply Forall_impl; [| exact Hy].
      intros z Hz. unfold not_after in *. now apply (trans _ (key y)).
Qed.

Lemma sorted_sorted (l : list A) :
  StronglySorted (not_after lt key) (Py.sorted lt key l).
Proof.
  induction l as [| x l IH]; simpl; [constructor |].
  now apply insert_by_sorted.
Qed.

Lemma insert_by_tied (k : K) (x : A) (l : list A) :
  filter (tied lt key k) (Py.insert_by lt key x l) = filter (tied lt key k) (x :: l).
Proof.
  destruct order as [asym trans].
  induction l as [| y l IH]; auto.
  cbn [Py.insert_by]. destruct (lt (key y) (key x)) eqn:E; auto.
  cbn [filter] in *. rewrite IH.
  destruct (tied lt key k x) eqn:Ex; auto.
  destruct (tied lt key k y) eqn:Ey; auto.
  exfalso. unfold tied in Ex, Ey.
  apply andb_prop in Ex as [Ex1 Ex2]. apply andb_prop in Ey as [Ey1 Ey2].
  apply negb_true_iff in Ex1, Ex2, Ey1, Ey2.
  rewrite (trans _ _ _ Ey2 Ex1) in E. discriminate.
Qed.

(** Among the elements whose keys tie, the sort keeps the order. *)
Lemma sorted_stable (k : K) (l : list A) :
  filter (tied lt key k) (Py.sorted lt key l) = filter (tied lt key k) l.
Proof.
  induction l as [| x l IH]; auto.
  cbn [Py.sorted]. rewrite insert_by_tied. cbn [filter]. now rewrite IH.
Qed.
End StableSort.

Section StringsAndWeights.
Context {L : Lib}.

Lemma strings_and_weights_eq (lattice : Fst) (itt ott : TokenType) :
  rewrite.lattice_to_strings_and_weights lattice itt ott =
    if start lattice =? NO_STATE_ID
    then (Raise CompositionFailure, [Start lattice])
    else
      let clean := rmepsilon (project lattice true) in
      let spaths := paths clean (output_token_type_arg ott) in
      (Ok (Py.VList (map tokens_of (Py.sorted float_lt item_key spaths))),
       [Start lattice; Project lattice true;
        Rmepsilon (project lattice true);
        Paths clean (output_token_type_arg ott)]).
Proof.
  unfold rewrite.lattice_to_strings_and_weights.
  rewrite check_nonempty_and_cleanup_eq.
  destruct (start lattice =? NO_STATE_ID); [reflexivity |].
  cbv zeta. eff_unfold. f_equal. f_equal. f_equal.
  apply map_ext. now intros [[x y] z].
Qed.
End StringsAndWeights.

(** C9, as amended.  [lattice_to_strings_and_weights] first runs the
    non-emptiness check and the cleanup on the raw lattice (raising the
    composition failure when there is no start state).  Then, [<] on the
    weights' float values being a strict weak order, it returns a list with
    one entry per enumerated path of the cleaned lattice, each entry the
    tuple of the path's output string split on whitespace (no input labels
    and no weight in it), in ascending order of weight, paths of tied
    weights in enumeration order. *)
Theorem lattice_to_strings_and_weights_spec :
  forall (L : Lib),
    strict_weak_order float_lt ->
    forall (lattice : Fst) (input_token_type output_token_type : TokenType),
      let run := rewrite.lattice_to_strings_and_weights
                   lattice input_token_type output_token_type in
      let clean := rmepsilon (project lattice true) in
      let spaths := paths clean (output_token_type_arg output_token_type) in
      (start lattice = NO_STATE_ID ->
       run = (Raise (RewriteError "Composition failure"), [Start lattice]))
      /\ (start lattice <> NO_STATE_ID ->
          exists ordered : list (string * string * Weight),
            result run
            = Ok (Py.VList
                    (map (fun p =>
                            Py.VTuple (map Py.VStr (Py.split (snd (fst p)))))
                         ordered))
            /\ trace run
               = [Start lattice; Project lattice true; Rmepsilon (project lattice true);
                  Paths clean (output_token_type_arg output_token_type)]
            /\ Permutation spaths ordered
            /\ StronglySorted
                 (fun p q =>
                    float_lt (Weight_float (snd q)) (Weight_float (snd p))
                    = false)
                 ordered
            /\ forall k, filter (tied float_lt item_key k) ordered
                         = filter (tied float_lt item_key k) spaths).
Proof.
  intros L order lattice itt ott run clean spaths. subst run.
  rewrite strings_and_weights_eq. fold clean. cbv zeta. fold spaths.
  split; intros H.
  - apply Z.eqb_eq in H. now rewrite H.
  - apply Z.eqb_neq in H. rewrite H.
    exists (Py.sorted float_lt item_key spaths).
    split; [reflexivity | split; [reflexivity |]].
    split; [apply sorted_perm |].
    split; [apply (sorted_sorted float_lt item_key order) |].
    intros k. apply (sorted_stable float_lt item_key order).
Qed.

Section OnPathModel_C9.
Local Existing Instance PathModel.lib.

(** C9, as stated, fails: for a lattice with the two paths ["p q"]
    (weight 2) and ["q"] (weight 1), the code returns the token tuples
    [("q",)] and [("p", "q")], not triples carrying input labels and
    weights. *)
Lemma strings_and_weights_are_not_triples :
  let lattice : Fst := PathModel.rule "a" [("p q", 2); ("q", 1)] in
  let code := rewrite.lattice_to_strings_and_weights lattice "byte" "byte" in
  let claimed := spec_strings_with_weights lattice "byte" "byte" in
  result code
  = Ok (Py.VList [Py.VTuple [Py.VStr "q"];
                  Py.VTuple [Py.VStr "p"; Py.VStr "q"]])
  /\ result claimed
     = Ok (Py.VList
             [Py.VTuple [Py.VStr "q"; Py.VTuple [Py.VStr "q"];
                         Py.VFloat (PathModel.Fin 1)];
              Py.VTuple [Py.VStr "p q"; Py.VTuple [Py.VStr "p"; Py.VStr "q"];
                         Py.VFloat (PathModel.Fin 2)]])
  /\ result code <> result claimed.
Proof.
  repeat split. discriminate.
Qed.

End OnPathModel_C9.

(* ------------------------------------------------------------------ *)
(** ** The reference instance satisfies the laws; the theorems at work *)

Section OnPathModel.
Local Existing Instance PathModel.lib.

Lemma path_model_far_laws : FarLaws path_model_contents.
Proof.
  split; unfold path_model_contents; simpl; unfold PathModel.Far_find.
  - intros a key f H. rewrite H. split; reflexivity.
  - intros a key H. now rewrite H.
  - intros a key key'. now destruct (PathModel.lookup key _).
Qed.

Lemma path_model_order : strict_weak_order PathModel.ltb.
Proof.
  split.
  - intros [x |] [y |]; simpl; try congruence.
    rewrite !Z.ltb_lt, Z.ltb_ge. lia.
  - intros [x |] [y |] [z |]; simpl; try congruence.
    rewrite !Z.ltb_ge. lia.
Qed.




(** C6 at work on the archive ["rules.far"]. *)
Lemma set_rules_spec_witness :
  let self := rule_cascade.__init__ "rules.far" in
  let ok := rule_cascade.set_rules self ["a_to_b"; "b_to_c"] in
  let ko := rule_cascade.set_rules self (["a_to_b"] ++ "nope" :: ["c_to_d"]) in
  (result (fst ok) = Ok tt
   /\ rule_cascade.rules (snd ok)
      = map (fun f => arcsort f "ilabel")
            [PathModel.rule "a" [("b", 0)];
             PathModel.rule "b" [("c", 0); ("c c", 1)]]
   /\ lookups (trace (fst ok)) = ["a_to_b"; "b_to_c"])
  /\ (result (fst ko) = Raise (CascadeError "Cannot find rule: nope")
      /\ names (CascadeError "Cannot find rule: nope") "nope" = true
      /\ lookups (trace (fst ko)) = ["a_to_b"; "nope"]).
Proof.
  intros self ok ko.
  destruct (set_rules_spec PathModel.lib path_model_contents
              path_model_far_laws self) as [_ [Hok Hko]].
  split.
  - apply (Hok ["a_to_b"; "b_to_c"]). repeat constructor.
  - apply (Hko ["a_to_b"] [PathModel.rule "a" [("b", 0)]] "nope" ["c_to_d"]).
    + repeat constructor.
    + reflexivity.
Defined.

(** C10 at work: a cascade holding one rule keeps it when reconfiguring
    fails on the second name. *)
Lemma set_rules_failure_keeps_rules_witness :
  let self := snd (rule_cascade.set_rules
                     (rule_cascade.__init__ "rules.far") ["a_to_b"]) in
  result (fst (rule_cascade.set_rules self ["b_to_c"; "nope"]))
  = Raise (RuleNotFound "nope")
  /\ rule_cascade.rules (snd (rule_cascade.set_rules self ["b_to_c"; "nope"]))
     = rule_cascade.rules self
  /\ rule_cascade.rules self = [PathModel.rule "a" [("b", 0)]].
Proof.
  intros self. split; [reflexivity | split; [| reflexivity]].
  apply (set_rules_failure_keeps_rules PathModel.lib self ["b_to_c"; "nope"]
           (RuleNotFound "nope")).
  reflexivity.
Defined.

(** C3 at work: the cascade [a_to_b], [b_to_c], [c_to_d] on ["a"]. *)
Lemma cascade_of_three_is_threading_witness :
  let self := rule_cascade.__init__ "rules.far" in
  let cascade :=
    snd (rule_cascade.set_rules self ["a_to_b"; "b_to_c"; "c_to_d"]) in
  let r1 : Fst := PathModel.rule "a" [("b", 0)] in
  let r2 : Fst := PathModel.rule "b" [("c", 0); ("c c", 1)] in
  let r3 : Fst := PathModel.rule "c" [("d", 0)] in
  rule_cascade.rewrites cascade (Str "a") "byte" 4
  = (l <- by_hand (Str "a") r1 r2 r3 ;;
     d <- rewrite.lattice_to_dfa l false 4 ;;
     rewrite.lattice_to_strings d "byte")
  /\ result (rule_cascade.rewrites cascade (Str "a") "byte" 4) = Ok ["d"].
Proof.
  intros self cascade r1 r2 r3. split; [| reflexivity].
  destruct (cascade_of_three_is_threading PathModel.lib path_model_contents
              path_model_far_laws self "a_to_b" "b_to_c" "c_to_d" r1 r2 r3
              eq_refl eq_refl eq_refl) as [_ [_ H]].
  destruct (H (Str "a")) as [_ [_ [_ [Hrewrites _]]]].
  apply Hrewrites.
Defined.


(** C9 at work: three paths, two of them tied. *)
Lemma lattice_to_strings_and_weights_witness :
  let lattice : Fst := PathModel.rule "a" [("p q", 2); ("q", 1); ("r  s", 1)] in
  let spaths := paths (rmepsilon (project lattice true))
                      (output_token_type_arg "byte") in
  strict_weak_order PathModel.ltb
  /\ start lattice <> NO_STATE_ID
  /\ result (rewrite.lattice_to_strings_and_weights lattice "byte" "byte")
     = Ok (Py.VList [Py.VTuple [Py.VStr "q"];
                     Py.VTuple [Py.VStr "r"; Py.VStr "s"];
                     Py.VTuple [Py.VStr "p"; Py.VStr "q"]])
  /\ exists ordered,
      result (rewrite.lattice_to_strings_and_weights lattice "byte" "byte")
      = Ok (Py.VList
              (map (fun p => Py.VTuple (map Py.VStr (Py.split (snd (fst p)))))
                   ordered))
      /\ Permutation spaths ordered
      /\ forall k, filter (tied float_lt item_key k) ordered
                   = filter (tied float_lt item_key k) spaths.
Proof.
  intros lattice spaths.
  assert (Hstart : start lattice <> NO_STATE_ID) by discriminate.
  split; [exact path_model_order | split; [exact Hstart |]].
  split; [reflexivity |].
  destruct (lattice_to_strings_and_weights_spec PathModel.lib path_model_order
              lattice "byte" "byte") as [_ H].
  destruct (H Hstart) as [ordered [Hres [_ [Hperm [_ Hstable]]]]].
  exists ordered. auto.
Defined.

End OnPathModel.

(* ------------------------------------------------------------------ *)
(** ** The scenarios of the specification, on the reference instance *)

Section Scenarios.
Local Existing Instance PathModel.lib.

Example split_on_whitespace :
  Py.split " k  ae t " = ["k"; "ae"; "t"] /\ Py.split "" = [].
Proof. split; reflexivity. Qed.

(** A rule mapping ["cat"] to ["feline"] and nothing else. *)
Example scenario_unambiguous_top_rewrite :
  result (rewrite.top_rewrite (Str "cat") (PathModel.rule "cat" [("feline", 0)])
                              "byte")
  = Ok "feline".
Proof. reflexivity. Qed.

(** Two outputs tied at weight 1. *)
Example scenario_tie :
  result (rewrite.one_top_rewrite
            (Str "a") (PathModel.rule "a" [("x", 1); ("y", 1)]) "byte" 4)
  = Raise (AmbiguousRewrite "x" "y" "1").
Proof. reflexivity. Qed.

Example scenario_n_shortest :
  result (rewrite.top_rewrites
            (Str "a") (PathModel.rule "a" [("p", 0); ("q", 1); ("r", 2)])
            2 "byte")
  = Ok ["p"; "q"].
Proof. reflexivity. Qed.

Example scenario_containment :
  let rule : Fst := PathModel.rule "a" [("p", 0)] in
  result (rewrite.matches (Str "a") (Str "p") rule) = Ok true
  /\ result (rewrite.matches (Str "a") (Str "q") rule) = Ok false.
Proof. split; reflexivity. Qed.

(** The two thresholds of [lattice_to_dfa] on one rule: [One] keeps the
    optimal output, [Zero] keeps both. *)
Example scenario_thresholds :
  let rule : Fst := PathModel.rule "a" [("x", 1); ("y", 2); ("x", 3)] in
  result (rewrite.optimal_rewrites (Str "a") rule "byte" 4) = Ok ["x"]
  /\ result (rewrite.rewrites (Str "a") rule "byte" 4) = Ok ["x"; "y"].
Proof. split; reflexivity. Qed.

(** A cascade whose second stage cannot compose stops with the
    composition failure. *)
Example scenario_cascade_failure :
  let cascade :=
    snd (rule_cascade.set_rules (rule_cascade.__init__ "rules.far")
                                ["a_to_b"; "c_to_d"]) in
  result (rule_cascade.rewrites cascade (Str "a") "byte" 4)
  = Raise CompositionFailure.
Proof. reflexivity. Qed.

(** The cap at work.  The acceptor of ["a"] has 2 states and its DFA has 2:
    with the default multiplier the cap is 264 and nothing is logged; with
    the multiplier -127 the cap is 2, the DFA has exactly as many states,
    and the warning is logged while the DFA is returned all the same. *)
Example scenario_state_cap :
  let lattice : Fst := PathModel.acceptor "a" in
  let usual := rewrite.lattice_to_dfa lattice false 4 in
  let tight := rewrite.lattice_to_dfa lattice false (-127) in
  warnings (trace usual) = []
  /\ warnings (trace tight) = [cap_warning]
  /\ result tight = result usual
  /\ result (dfa <- tight ;; rewrite.lattice_to_strings dfa "byte") = Ok ["a"].
Proof. repeat split. Qed.

End Scenarios.

(* ------------------------------------------------------------------ *)
(** ** Further properties: the single-rule functions *)

Section SingleRule.
Context {L : Lib}.

(** A composition without start state stops any computation that begins
    with [rewrite_lattice]. *)
Lemma rewrite_lattice_then_fails {A} (istring : FstLike Fst) (rule : Fst)
    (k : Fst -> Eff.M event A) :
  start (compose istring rule "alt_sequence") = NO_STATE_ID ->
  (lattice <- rewrite.rewrite_lattice istring rule ;; k lattice)
  = (Raise CompositionFailure,
     [Compose istring rule "alt_sequence";
      Start (compose istring rule "alt_sequence")]).
Proof.
  intros H. rewrite rewrite_lattice_eq. cbv zeta.
  apply Z.eqb_eq in H. rewrite H. reflexivity.
Qed.


End SingleRule.

(** X1.  When the composition of the input with the rule has no start
    state, each of [top_rewrite], [one_top_rewrite], [rewrites],
    [top_rewrites], [optimal_rewrites] and [matches] raises
    [Error("Composition failure")] having called the library twice only, to
    compose and to ask for the start state: nothing is determinized,
    searched, enumerated or matched. *)
Theorem single_rule_functions_fail_fast :
  forall (L : Lib) (istring : FstLike Fst) (rule : Fst),
    start (compose istring rule "alt_sequence") = NO_STATE_ID ->
    let failed {A} : Eff.M event A :=
      (Raise (RewriteError "Composition failure"),
       [Compose istring rule "alt_sequence";
        Start (compose istring rule "alt_sequence")]) in
    (forall tt, rewrite.top_rewrite istring rule tt = failed)
    /\ (forall tt sm, rewrite.one_top_rewrite istring rule tt sm = failed)
    /\ (forall tt sm, rewrite.rewrites istring rule tt sm = failed)
    /\ (forall n tt, rewrite.top_rewrites istring rule n tt = failed)
    /\ (forall tt sm, rewrite.optimal_rewrites istring rule tt sm = failed)
    /\ (forall ostring, rewrite.matches istring ostring rule = failed).
Proof.
  intros L istring rule H failed. subst failed. cbv beta.
  repeat split; intros; now apply rewrite_lattice_then_fails.
Qed.


(* ------------------------------------------------------------------ *)
(** ** Further properties: the stages of a cascade *)

Section Stages.
Context {L : Lib}.

Lemma composed_rules_app (t1 t2 : list event) :
  composed_rules (t1 ++ t2) = composed_rules t1 ++ composed_rules t2.
Proof. apply flat_map_app. Qed.

Lemma rewrite_lattice_composes input rule :
  composed_rules (trace (rewrite.rewrite_lattice input rule)) = [rule].
Proof.
  rewrite rewrite_lattice_eq. cbv zeta.
  now destruct (start _ =? NO_STATE_ID).
Qed.

(** The loop composes with the rules in order and stops at the first
    composition that fails. *)
Lemma thread_stages (rs : list Fst) : forall lattice,
  let run := rule_cascade.thread lattice rs in
  match result run with
  | Ok _ => composed_rules (trace run) = rs
  | Raise e =>
      e = CompositionFailure
      /\ exists done r rest,
           rs = done ++ r :: rest /\ composed_rules (trace run) = done ++ [r]
  | Undefined => False
  end.
Proof.
  induction rs as [| r rs IH]; intros lattice; cbn [rule_cascade.thread].
  - reflexivity.
  - cbv zeta. rewrite result_bind, trace_bind, composed_rules_app.
    rewrite rewrite_lattice_composes.
    pose proof (rewrite_lattice_raises (Acc lattice) r) as Hraise.
    rewrite rewrite_lattice_eq in *. cbv zeta in *.
    destruct (start _ =? NO_STATE_ID); unfold result in *; cbn [fst] in *.
    + split; [reflexivity |]. exists [], r, rs. split; reflexivity.
    + specialize (IH (rmepsilon (project (compose (Acc lattice) r "alt_sequence")
                                         true))).
      cbv zeta in IH. unfold result in IH.
      destruct (fst (rule_cascade.thread _ rs)) as [l | e |].
      * cbn [app]. now rewrite IH.
      * destruct IH as [-> [done [r' [rest [-> Htr]]]]].
        split; [reflexivity |].
        exists (r :: done), r', rest. cbn [app]. now rewrite Htr.
      * contradiction.
Qed.

Lemma thread_app (rs1 rs2 : list Fst) : forall lattice,
  rule_cascade.thread lattice (rs1 ++ rs2)
  = (l <- rule_cascade.thread lattice rs1 ;; rule_cascade.thread l rs2).
Proof.
  induction rs1 as [| r rs1 IH]; intros lattice; cbn [app rule_cascade.thread].
  - now rewrite bind_ret_l.
  - rewrite bind_assoc. apply bind_ext. intros l. apply IH.
Qed.

Lemma rewrite_lattice_cons (a : Far) (r : Fst) (rs : list Fst) input :
  rule_cascade._rewrite_lattice
    {| rule_cascade.far := a; rule_cascade.rules := r :: rs |} input
  = (l <- rewrite.rewrite_lattice input r ;; rule_cascade.thread l rs).
Proof. reflexivity. Qed.
End Stages.

(** X3.  [_rewrite_lattice] composes with the rules of the cascade in
    their order.  When it returns a lattice it has composed with every
    rule, once each.  When it raises on a cascade that has rules, the error
    is [Error("Composition failure")] and it has composed with the rules up
    to the one that failed and with none after it: no partial result is
    returned. *)
Theorem cascade_stages :
  forall (L : Lib) (self : rule_cascade.RuleCascade) (input : FstLike Fst),
    let run := rule_cascade._rewrite_lattice self input in
    match result run with
    | Ok _ => composed_rules (trace run) = rule_cascade.rules self
    | Raise e =>
        (rule_cascade.rules self = [] /\ e = NoRulesConfigured
         /\ trace run = [])
        \/ (e = CompositionFailure
            /\ exists done r rest,
                 rule_cascade.rules self = done ++ r :: rest
                 /\ composed_rules (trace run) = done ++ [r])
    | Undefined => False
    end.
Proof.
  intros L [a rs] input run. subst run. cbn [rule_cascade.rules].
  destruct rs as [| r rs].
  - left. repeat split.
  - rewrite rewrite_lattice_cons, result_bind, trace_bind, composed_rules_app.
    rewrite rewrite_lattice_composes.
    rewrite rewrite_lattice_eq. cbv zeta.
    destruct (start _ =? NO_STATE_ID); unfold result; cbn [fst].
    + right. split; [reflexivity |]. exists [], r, rs. split; reflexivity.
    + pose proof (thread_stages rs
                    (rmepsilon (project (compose input r "alt_sequence") true)))
        as H.
      cbv zeta in H. unfold result in H.
      destruct (fst (rule_cascade.thread _ rs)) as [l | e |].
      * cbn [app]. now rewrite H.
      * right. destruct H as [-> [done [r' [rest [-> Htr]]]]].
        split; [reflexivity |].
        exists (r :: done), r', rest. cbn [app]. now rewrite Htr.
      * contradiction.
Qed.

(** X4.  A cascade of the rules [r1 :: rs1] followed by [r2 :: rs2]
    rewrites as the cascade of the first ones followed, on the lattice it
    returns, by the cascade of the others: same outcome, same library
    calls. *)
Theorem cascade_splits :
  forall (L : Lib) (a a1 a2 : Far) (r1 r2 : Fst) (rs1 rs2 : list Fst)
         (input : FstLike Fst),
    let cascade (b : Far) (rs : list Fst) :=
      {| rule_cascade.far := b; rule_cascade.rules := rs |} in
    rule_cascade._rewrite_lattice
      (cascade a ((r1 :: rs1) ++ (r2 :: rs2))) input
    = (l <- rule_cascade._rewrite_lattice (cascade a1 (r1 :: rs1)) input ;;
       rule_cascade._rewrite_lattice (cascade a2 (r2 :: rs2)) (Acc l)).
Proof.
  intros L a a1 a2 r1 r2 rs1 rs2 input cascade. subst cascade. cbv beta.
  rewrite <- app_comm_cons, !rewrite_lattice_cons, bind_assoc.
  apply bind_ext. intros l. rewrite thread_app.
  apply bind_ext. intros l'. reflexivity.
Qed.

(** X5.  On a cascade of one rule, each method is the single-rule function
    of its name on that rule: same outcome, same library calls. *)
Theorem cascade_of_one_rule :
  forall (L : Lib) (a : Far) (rule : Fst) (input : FstLike Fst),
    let cascade := {| rule_cascade.far := a; rule_cascade.rules := [rule] |} in
    rule_cascade._rewrite_lattice cascade input
    = rewrite.rewrite_lattice input rule
    /\ (forall tt,
           rule_cascade.top_rewrite cascade input tt
           = rewrite.top_rewrite input rule tt)
    /\ (forall tt sm,
           rule_cascade.one_top_rewrite cascade input tt sm
           = rewrite.one_top_rewrite input rule tt sm)
    /\ (forall tt sm,
           rule_cascade.rewrites cascade input tt sm
           = rewrite.rewrites input rule tt sm)
    /\ (forall n tt,
           rule_cascade.top_rewrites cascade input n tt
           = rewrite.top_rewrites input rule n tt)
    /\ (forall tt sm,
           rule_cascade.optimal_rewrites cascade input tt sm
           = rewrite.optimal_rewrites input rule tt sm)
    /\ (forall ostring,
           rule_cascade.matches cascade input ostring
           = rewrite.matches input ostring rule).
Proof.
  intros L a rule input cascade.
  assert (H : rule_cascade._rewrite_lattice cascade input
              = rewrite.rewrite_lattice input rule).
  { subst cascade. rewrite rewrite_lattice_cons. apply bind_ret_r. }
  unfold rule_cascade.top_rewrite, rule_cascade.one_top_rewrite,
    rule_cascade.rewrites, rule_cascade.top_rewrites,
    rule_cascade.optimal_rewrites, rule_cascade.matches.
  rewrite H. repeat split.
Qed.

(* ------------------------------------------------------------------ *)
(** ** Further properties: what the cascade's methods raise and use *)

Section MethodsRaise.
Context {L : Lib}.

Lemma thread_raises (rs : list Fst) lattice (e : exn) :
  result (rule_cascade.thread lattice rs) = Raise e -> e = CompositionFailure.
Proof.
  intros H. pose proof (thread_stages rs lattice) as Hst. cbv zeta in Hst.
  rewrite H in Hst. tauto.
Qed.

Lemma cascade_rewrite_raises (self : rule_cascade.RuleCascade) input e :
  result (rule_cascade._rewrite_lattice self input) = Raise e ->
  e = NoRulesConfigured \/ e = CompositionFailure.
Proof.
  unfold rule_cascade._rewrite_lattice.
  destruct (rule_cascade.rules self) as [| r rs].
  - intros H. inversion H. now left.
  - rewrite result_bind. intros H. right.
    destruct (result (rewrite.rewrite_lattice input r)) as [l | e' |] eqn:E.
    + now apply thread_raises in H.
    + inversion H; subst. now apply rewrite_lattice_raises in E.
    + discriminate.
Qed.

(** A method raises what [_rewrite_lattice] raises or what its extraction
    raises. *)
Lemma method_raises {A} (self : rule_cascade.RuleCascade) input
    (k : Fst -> Eff.M event A) (e : exn) :
  result (l <- rule_cascade._rewrite_lattice self input ;; k l) = Raise e ->
  e = NoRulesConfigured \/ e = CompositionFailure
  \/ exists l, result (k l) = Raise e.
Proof.
  rewrite result_bind.
  destruct (result (rule_cascade._rewrite_lattice self input))
    as [l | e' |] eqn:E; intros H.
  - right. right. now exists l.
  - inversion H; subst. apply cascade_rewrite_raises in E. tauto.
  - discriminate.
Qed.

Lemma one_top_string_raises_ambiguous lattice tt (e : exn) :
  result (rewrite.lattice_to_one_top_string lattice tt) = Raise e ->
  exists s1 s2 w, e = AmbiguousRewrite s1 s2 w.
Proof.
  rewrite one_top_string_eq. unfold result; cbn [fst].
  destruct (paths lattice (positional tt))
    as [| [[i1 o1] w1] [| [[i2 o2] w2] rest]]; intros H; inversion H.
  now exists o1, o2, (Weight_str w2).
Qed.

Lemma only_alt_bind {A B} (m : Eff.M event A) (k : A -> Eff.M event B) :
  only_alt_sequence m -> (forall a, only_alt_sequence (k a)) ->
  only_alt_sequence (bind m k).
Proof.
  unfold only_alt_sequence. intros Hm Hk.
  rewrite trace_bind. unfold filters. rewrite flat_map_app.
  apply Forall_app. split; [exact Hm |].
  destruct (result m); [apply Hk | constructor | constructor].
Qed.

Lemma only_alt_dfa lattice oo sm :
  only_alt_sequence (rewrite.lattice_to_dfa lattice oo sm).
Proof.
  unfold only_alt_sequence. rewrite lattice_to_dfa_eq. cbv zeta.
  destruct oo; unfold trace; cbn [snd];
    match goal with |- context [?a =? ?b] => destruct (a =? b) end;
    constructor.
Qed.

Lemma only_alt_one_top_string lattice tt :
  only_alt_sequence (rewrite.lattice_to_one_top_string lattice tt).
Proof.
  unfold only_alt_sequence. rewrite one_top_string_eq. constructor.
Qed.

Lemma only_alt_matches lattice ostring :
  only_alt_sequence
    (perform (Matches lattice ostring "alt_sequence")
             (matches lattice ostring "alt_sequence")).
Proof. repeat constructor. Qed.

(** The extractions that neither compose nor match. *)
Lemma only_alt_top_string lattice tt :
  only_alt_sequence (rewrite.lattice_to_top_string lattice tt).
Proof. constructor. Qed.

Lemma only_alt_strings lattice tt :
  only_alt_sequence (rewrite.lattice_to_strings lattice tt).
Proof. constructor. Qed.

Lemma only_alt_shortest lattice n :
  only_alt_sequence (rewrite.lattice_to_shortest lattice n).
Proof. constructor. Qed.
End MethodsRaise.

(** X6.  On a cascade, [top_rewrite], [rewrites], [top_rewrites],
    [optimal_rewrites] and [matches] raise nothing but
    [Error("No rules requested")] and [Error("Composition failure")];
    [one_top_rewrite] raises these or the error for several top rewrites. *)
Theorem cascade_methods_raise :
  forall (L : Lib) (self : rule_cascade.RuleCascade) (input : FstLike Fst)
         (e : exn),
    let plain := e = NoRulesConfigured \/ e = CompositionFailure in
    (forall tt,
        result (rule_cascade.top_rewrite self input tt) = Raise e -> plain)
    /\ (forall tt sm,
           result (rule_cascade.rewrites self input tt sm) = Raise e -> plain)
    /\ (forall n tt,
           result (rule_cascade.top_rewrites self input n tt) = Raise e ->
           plain)
    /\ (forall tt sm,
           result (rule_cascade.optimal_rewrites self input tt sm) = Raise e ->
           plain)
    /\ (forall ostring,
           result (rule_cascade.matches self input ostring) = Raise e -> plain)
    /\ (forall tt sm,
           result (rule_cascade.one_top_rewrite self input tt sm) = Raise e ->
           plain \/ exists s1 s2 w, e = AmbiguousRewrite s1 s2 w).
Proof.
  intros L self input e plain. subst plain.
  split; [| split; [| split; [| split; [| split]]]].
  - intros tt H. apply method_raises in H as [H | [H | [l H]]]; auto.
    discriminate.
  - intros tt sm H. apply method_raises in H as [H | [H | [l H]]]; auto.
    rewrite result_bind, lattice_to_dfa_result in H. discriminate.
  - intros n tt H. apply method_raises in H as [H | [H | [l H]]]; auto.
    discriminate.
  - intros tt sm H. apply method_raises in H as [H | [H | [l H]]]; auto.
    rewrite result_bind, lattice_to_dfa_result in H. discriminate.
  - intros ostring H. apply method_raises in H as [H | [H | [l H]]]; auto.
    discriminate.
  - intros tt sm H. apply method_raises in H as [H | [H | [l H]]]; auto.
    right. rewrite result_bind, lattice_to_dfa_result in H.
    now apply one_top_string_raises_ambiguous in H.
Qed.

(** X7.  Every composition and every containment test that the functions
    of [rewrite.py] and the methods of the cascade make uses the
    [alt_sequence] filter, whatever the input, the rules and the outcome. *)
Theorem alt_sequence_everywhere :
  forall (L : Lib) (input ostring : FstLike Fst) (rule : Fst)
         (self : rule_cascade.RuleCascade) (tt : TokenType) (sm n : Z),
    (only_alt_sequence (rewrite.rewrite_lattice input rule)
     /\ only_alt_sequence (rewrite.top_rewrite input rule tt)
     /\ only_alt_sequence (rewrite.one_top_rewrite input rule tt sm)
     /\ only_alt_sequence (rewrite.rewrites input rule tt sm)
     /\ only_alt_sequence (rewrite.top_rewrites input rule n tt)
     /\ only_alt_sequence (rewrite.optimal_rewrites input rule tt sm)
     /\ only_alt_sequence (rewrite.matches input ostring rule))
    /\ (only_alt_sequence (rule_cascade._rewrite_lattice self input)
        /\ only_alt_sequence (rule_cascade.top_rewrite self input tt)
        /\ only_alt_sequence (rule_cascade.one_top_rewrite self input tt sm)
        /\ only_alt_sequence (rule_cascade.rewrites self input tt sm)
        /\ only_alt_sequence (rule_cascade.top_rewrites self input n tt)
        /\ only_alt_sequence (rule_cascade.optimal_rewrites self input tt sm)
        /\ only_alt_sequence (rule_cascade.matches self input ostring)).
Proof.
  intros L input ostring rule self tt sm n.
  pose proof (rewrite_lattice_filters input rule) as Hone.
  pose proof (cascade_filters self input) as Hall.
  unfold rewrite.top_rewrite, rewrite.one_top_rewrite, rewrite.rewrites,
    rewrite.top_rewrites, rewrite.optimal_rewrites, rewrite.matches,
    rule_cascade.top_rewrite, rule_cascade.one_top_rewrite,
    rule_cascade.rewrites, rule_cascade.top_rewrites,
    rule_cascade.optimal_rewrites, rule_cascade.matches.
  split; repeat split; try assumption;
    repeat first
      [ assumption | apply only_alt_dfa | apply only_alt_one_top_string
      | apply only_alt_matches | apply only_alt_top_string
      | apply only_alt_strings | apply only_alt_shortest
      | apply only_alt_bind; [| intros ?] ].
Qed.

(* ------------------------------------------------------------------ *)
(** ** Further properties: configuring, whatever the archive *)

Section Lookups.
Context {L : Lib}.

(** The generator looks the names up in order, and stops at the first one
    the reader does not find. *)
Lemma validate_lookups (names : list string) : forall (a : Far),
  let gen := fst (rule_cascade._validate_and_arcsort_rules a names) in
  match result gen with
  | Ok rs =>
      lookups (trace gen) = names /\ List.length rs = List.length names
  | Raise e =>
      exists before n after,
        names = before ++ n :: after
        /\ e = RuleNotFound n
        /\ lookups (trace gen) = before ++ [n]
  | Undefined => False
  end.
Proof.
  induction names as [| n names IH]; intros a.
  - split; reflexivity.
  - cbv zeta. rewrite validate_cons. cbv zeta.
    specialize (IH (snd (Far_find a n))). cbv zeta in IH.
    destruct (fst (Far_find a n)).
    + destruct (rule_cascade._validate_and_arcsort_rules _ names)
        as [[[rs' | e' |] t'] a']; eff_unfold.
      * destruct IH as [Hl Hn]. rewrite app_nil_r. simpl.
        now rewrite Hl, Hn.
      * destruct IH as [before [m [after [-> [-> Hl]]]]].
        exists (n :: before), m, after. simpl. now rewrite Hl.
      * contradiction.
    + eff_unfold. exists [], n, names. repeat split.
Qed.

Section KeptContents.
Variable contents : Far -> string -> option Fst.
Hypothesis laws : FarLaws contents.

(** Lookups leave the contents of the archive as they are. *)
Lemma validate_keeps_contents (names : list string) : forall (a : Far) key,
  contents (snd (rule_cascade._validate_and_arcsort_rules a names)) key
  = contents a key.
Proof.
  induction names as [| n names IH]; intros a key; [reflexivity |].
  rewrite validate_cons. cbv zeta.
  destruct (fst (Far_find a n)); cbn [snd].
  - rewrite IH. apply (find_keeps _ laws).
  - apply (find_keeps _ laws).
Qed.

(** When the generator runs to its end, every name was in the archive and
    the rules are the archive's, arc-sorted. *)
Lemma validate_ok_present (names : list string) : forall (a : Far) rs,
  result (fst (rule_cascade._validate_and_arcsort_rules a names)) = Ok rs ->
  exists fs, all_present contents a names fs
             /\ rs = map (fun f => arcsort f "ilabel") fs.
Proof.
  induction names as [| n names IH]; intros a rs.
  - intros H. inversion H. exists []. split; constructor.
  - rewrite validate_cons. cbv zeta.
    destruct (contents a n) as [f |] eqn:E.
    + destruct (find_present _ laws a n f E) as [Hfound Hget].
      rewrite Hfound, Hget.
      specialize (IH (snd (Far_find a n))).
      destruct (rule_cascade._validate_and_arcsort_rules _ names)
        as [[[rs' | e' |] t'] a']; eff_unfold; try discriminate.
      intros H. inversion H as [Hrs]. clear H Hrs.
      destruct (IH rs' eq_refl) as [fs [Hall Hfs]].
      exists (f :: fs). split; [| now rewrite Hfs].
      constructor; [exact E |].
      unfold all_present in *.
      eapply Forall2_impl; [| exact Hall].
      intros n' f' Hn'. simpl in Hn'. now rewrite (find_keeps _ laws) in Hn'.
    + rewrite (find_absent _ laws a n E). discriminate.
Qed.
End KeptContents.
End Lookups.

(** X8.  Whatever the archive reader answers, [set_rules] looks the names
    up in their order.  When it succeeds it has looked every name up, once,
    and holds as many rules as names.  When it raises, it raises for a name
    of the list, having looked up the names before it and that one and
    none after it, and the rule sequence is the one it had. *)
Theorem set_rules_lookups :
  forall (L : Lib) (self : rule_cascade.RuleCascade) (names : list string),
    let r := rule_cascade.set_rules self names in
    match result (fst r) with
    | Ok _ =>
        lookups (trace (fst r)) = names
        /\ List.length (rule_cascade.rules (snd r)) = List.length names
    | Raise e =>
        exists before n after,
          names = before ++ n :: after
          /\ e = CascadeError ("Cannot find rule: " +++ n)
          /\ lookups (trace (fst r)) = before ++ [n]
          /\ rule_cascade.rules (snd r) = rule_cascade.rules self
    | Undefined => False
    end.
Proof.
  intros L self names r. subst r. rewrite set_rules_eq. cbv zeta.
  pose proof (validate_lookups names (rule_cascade.far self)) as H.
  cbv zeta in H. cbn [fst snd rule_cascade.rules].
  unfold result at 1. unfold trace at 1 2. cbn [fst snd].
  destruct (result (fst (rule_cascade._validate_and_arcsort_rules _ names)))
    as [rs | e |].
  - exact H.
  - destruct H as [before [n [after [Hn [He Hl]]]]].
    exists before, n, after. auto.
  - exact H.
Qed.

(** X9.  For an archive reader that behaves as [FarLaws] says, after any
    sequence of [set_rules] calls on a fresh cascade, failed ones among
    them, the rule sequence is empty if no call has succeeded, and
    otherwise it is the archive's FSTs for the names of the last call that
    succeeded, each arc-sorted by input label. *)
Theorem rules_follow_last_successful_call :
  forall (L : Lib) (contents : Far -> string -> option Fst),
    FarLaws contents ->
    forall (far_path : string) (calls : list (list string)),
      let st := after_calls far_path calls in
      match snd st with
      | None => rule_cascade.rules (fst st) = []
      | Some names =>
          exists fs,
            all_present contents (Far_open far_path) names fs
            /\ rule_cascade.rules (fst st)
               = map (fun f => arcsort f "ilabel") fs
      end.
Proof.
  intros L contents laws far_path calls st. subst st. unfold after_calls.
  set (a0 := Far_open far_path).
  set (inv := fun st : rule_cascade.RuleCascade * option (list string) =>
    (forall key, contents (rule_cascade.far (fst st)) key = contents a0 key)
    /\ match snd st with
       | None => rule_cascade.rules (fst st) = []
       | Some names =>
           exists fs,
             all_present contents a0 names fs
             /\ rule_cascade.rules (fst st)
                = map (fun f => arcsort f "ilabel") fs
       end).
  assert (H0 : inv (rule_cascade.__init__ far_path, None)).
  { split; reflexivity. }
  revert H0. generalize (rule_cascade.__init__ far_path, @None (list string)).
  intros st0 H0.
  assert (Hstep : forall st names, inv st -> inv (history_step st names)).
  { subst inv. cbv beta. intros [self last] names [Hc Hr].
    cbn [fst snd] in *.
    unfold history_step. cbn [fst snd]. rewrite set_rules_eq. cbv zeta.
    cbn [fst snd rule_cascade.far rule_cascade.rules].
    unfold result at 1. cbn [fst].
    split.
    - intros key. now rewrite (validate_keeps_contents contents laws).
    - pose proof (validate_ok_present contents laws names
                    (rule_cascade.far self)) as Hok.
      destruct (result (fst (rule_cascade._validate_and_arcsort_rules
                               (rule_cascade.far self) names)))
        as [rs | e |]; try exact Hr.
      destruct (Hok rs eq_refl) as [fs [Hall ->]].
      exists fs. split; [| reflexivity].
      unfold all_present in *. eapply Forall2_impl; [| exact Hall].
      intros n f Hn. simpl in Hn. now rewrite <- Hc. }
  assert (Hall : forall cs st, inv st -> inv (fold_left history_step cs st)).
  { induction cs as [| c cs IH]; intros st Hst; simpl; auto. }
  exact (proj2 (Hall calls st0 H0)).
Qed.

(* ------------------------------------------------------------------ *)
(** ** Further properties: the tokens of the sorted strings *)

Section Tokens.

Lemma list_ascii_of_string_app (s t : string) :
  list_ascii_of_string (s +++ t)
  = list_ascii_of_string s ++ list_ascii_of_string t.
Proof. induction s as [| c s IH]; simpl; [reflexivity | now rewrite IH]. Qed.

Lemma append_assoc (s t u : string) : (s +++ t) +++ u = s +++ (t +++ u).
Proof. induction s as [| c s IH]; simpl; [reflexivity | now rewrite IH]. Qed.

(** A run that grows by one character that is no whitespace is a token. *)
Lemma is_token_snoc (w : string) (c : ascii) :
  Py.isspace c = false ->
  forallb (fun c => negb (Py.isspace c)) (list_ascii_of_string w) = true ->
  is_token (w +++ String c "") = true.
Proof.
  intros Hc Hw. unfold is_token. apply andb_true_intro. split.
  - destruct w; reflexivity.
  - rewrite list_ascii_of_string_app, forallb_app, Hw. simpl.
    now rewrite Hc.
Qed.

Lemma is_token_no_space (w : string) :
  is_token w = true ->
  forallb (fun c => negb (Py.isspace c)) (list_ascii_of_string w) = true.
Proof. unfold is_token. intros H. now apply andb_prop in H. Qed.

Lemma split_from_tokens (s : string) : forall cur,
  (forall w, cur = Some w -> is_token w = true) ->
  Forall (fun w => is_token w = true) (Py.split_from cur s).
Proof.
  induction s as [| c s IH]; intros cur Hcur; cbn [Py.split_from].
  - destruct cur as [w |]; repeat constructor. now apply Hcur.
  - destruct (Py.isspace c) eqn:Hc.
    + destruct cur as [w |].
      * constructor; [now apply Hcur |]. apply IH. discriminate.
      * apply IH. discriminate.
    + apply IH. intros w Hw. inversion Hw. apply is_token_snoc; auto.
      destruct cur as [w' |]; [| reflexivity].
      apply is_token_no_space. now apply Hcur.
Qed.

(** The tokens, put end to end, are the string without its whitespace. *)
Lemma split_from_concat (s : string) : forall cur,
  String.concat "" (Py.split_from cur s)
  = match cur with Some w => w | None => "" end +++ without_whitespace s.
Proof.
  assert (Hcons : forall w l, String.concat "" (w :: l)
                              = w +++ String.concat "" l).
  { intros w [| x l]; simpl; [| reflexivity].
    clear. induction w; simpl; congruence. }
  induction s as [| c s IH]; intros cur;
    cbn [Py.split_from without_whitespace].
  - destruct cur as [w |]; [| reflexivity]. simpl.
    clear. induction w; simpl; congruence.
  - destruct (Py.isspace c).
    + destruct cur as [w |].
      * rewrite Hcons, IH. reflexivity.
      * apply IH.
    + rewrite IH, append_assoc. reflexivity.
Qed.

Lemma split_tokens (s : string) :
  Forall (fun w => is_token w = true) (Py.split s)
  /\ String.concat "" (Py.split s) = without_whitespace s.
Proof.
  split.
  - apply split_from_tokens. discriminate.
  - apply (split_from_concat s None).
Qed.

Context {L : Lib}.

Lemma strings_of_strs (ws : list string) :
  strings_of (map Py.VStr ws) = ws.
Proof.
  unfold strings_of. induction ws as [| w ws IH]; simpl; congruence.
Qed.

Lemma tuples_of_tokens (ps : list item) :
  tuples_of (Py.VList (map tokens_of ps))
  = map (fun p => Py.split (item_ostring p)) ps.
Proof.
  unfold tuples_of. induction ps as [| p ps IH]; simpl; [reflexivity |].
  now rewrite strings_of_strs, IH.
Qed.
End Tokens.

(** X10.  On a lattice that has a start state,
    [lattice_to_strings_and_weights] returns one tuple per enumerated path
    of the cleaned lattice; the strings of each tuple are tokens, none
    empty and none holding whitespace, and put end to end they are the
    path's output string without its whitespace, so that runs of spaces and
    spaces at either end give no empty token.  The [input_token_type]
    argument has no effect on the call. *)
Theorem strings_and_weights_tokens :
  forall (L : Lib) (lattice : Fst) (input_token_type output_token_type
                                    : TokenType),
    start lattice <> NO_STATE_ID ->
    let run := rewrite.lattice_to_strings_and_weights
                 lattice input_token_type output_token_type in
    let spaths := paths (rmepsilon (project lattice true))
                        (output_token_type_arg output_token_type) in
    (exists v,
        result run = Ok v
        /\ List.length (tuples_of v) = List.length spaths
        /\ Forall (Forall (fun w => is_token w = true)) (tuples_of v)
        /\ Permutation (map (String.concat "") (tuples_of v))
                       (map without_whitespace (ostrings spaths)))
    /\ (forall other : TokenType,
           rewrite.lattice_to_strings_and_weights
             lattice other output_token_type = run).
Proof.
  intros L lattice itt ott Hstart run spaths. subst run.
  rewrite strings_and_weights_eq.
  split; [| intros other; now rewrite strings_and_weights_eq].
  apply Z.eqb_neq in Hstart. rewrite Hstart. cbv zeta. fold spaths.
  eexists. split; [reflexivity |].
  rewrite tuples_of_tokens.
  pose proof (sorted_perm float_lt item_key spaths) as Hperm.
  set (ordered := Py.sorted float_lt item_key spaths) in *.
  split; [| split].
  - rewrite length_map. symmetry. now apply Permutation_length.
  - apply Forall_forall. intros ws Hin. apply in_map_iff in Hin as [p [<- _]].
    apply split_tokens.
  - rewrite map_map.
    rewrite (map_ext _ (fun p => without_whitespace (item_ostring p))).
    + unfold ostrings. rewrite map_map. apply Permutation_map.
      now apply Permutation_sym.
    + intros p. apply split_tokens.
Qed.

(* ------------------------------------------------------------------ *)
(** ** Further properties: where the functions determinize *)

Section Determinizing.
Context {L : Lib}.

Lemma determinize_calls_app (t1 t2 : list event) :
  determinize_calls (t1 ++ t2) = determinize_calls t1 ++ determinize_calls t2.
Proof. apply flat_map_app. Qed.

Lemma determinize_calls_dfa lattice oo sm :
  determinize_calls (trace (rewrite.lattice_to_dfa lattice oo sm))
  = [(lattice, state_threshold lattice sm, weight_threshold lattice oo)].
Proof.
  rewrite lattice_to_dfa_eq. cbv zeta. unfold trace; cbn [snd].
  destruct oo;
    match goal with |- context [?a =? ?b] => destruct (a =? b) end;
    reflexivity.
Qed.

(** The [determinize] calls of a function that cleans a composition and
    goes on with [k]. *)
Lemma determinize_calls_after_rewrite {A} istring rule
    (k : Fst -> Eff.M event A) :
  let lattice := compose istring rule "alt_sequence" in
  determinize_calls (trace (l <- rewrite.rewrite_lattice istring rule ;; k l))
  = if start lattice =? NO_STATE_ID then []
    else determinize_calls (trace (k (rmepsilon (project lattice true)))).
Proof.
  cbv zeta. rewrite trace_bind, determinize_calls_app, rewrite_lattice_eq.
  cbv zeta. now destruct (start _ =? NO_STATE_ID).
Qed.

Lemma determinize_calls_dfa_then {A} lattice oo sm
    (k : Fst -> Eff.M event A) :
  (forall d, determinize_calls (trace (k d)) = []) ->
  determinize_calls
    (trace (d <- rewrite.lattice_to_dfa lattice oo sm ;; k d))
  = [(lattice, state_threshold lattice sm, weight_threshold lattice oo)].
Proof.
  intros Hk. rewrite trace_bind, determinize_calls_app, determinize_calls_dfa.
  rewrite lattice_to_dfa_result, Hk. reflexivity.
Qed.

Lemma determinize_calls_one_top_string lattice tt :
  determinize_calls (trace (rewrite.lattice_to_one_top_string lattice tt))
  = [].
Proof. now rewrite one_top_string_eq. Qed.
End Determinizing.

(** X11.  [one_top_rewrite], [optimal_rewrites] and [rewrites] determinize
    once when the composition has a start state and not at all when it has
    none.  What they determinize is the cleaned lattice (the composition
    projected on its output side, epsilons removed), the cap is
    [256 + state_multiplier] times the number of states of that cleaned
    lattice, and the threshold is [Weight.One] for the first two and
    [Weight.Zero] for [rewrites].  [top_rewrite], [top_rewrites] and
    [matches] never determinize. *)
Theorem single_rule_functions_determinize :
  forall (L : Lib) (istring ostring : FstLike Fst) (rule : Fst)
         (tt : TokenType) (sm n : Z),
    let lattice := compose istring rule "alt_sequence" in
    let clean := rmepsilon (project lattice true) in
    let cap := 256 + sm * num_states clean in
    let once (w : Weight) :=
      if start lattice =? NO_STATE_ID then [] else [(clean, cap, w)] in
    determinize_calls (trace (rewrite.one_top_rewrite istring rule tt sm))
    = once (Weight_One (weight_type clean))
    /\ determinize_calls (trace (rewrite.optimal_rewrites istring rule tt sm))
       = once (Weight_One (weight_type clean))
    /\ determinize_calls (trace (rewrite.rewrites istring rule tt sm))
       = once (Weight_Zero (weight_type clean))
    /\ determinize_calls (trace (rewrite.top_rewrite istring rule tt)) = []
    /\ determinize_calls (trace (rewrite.top_rewrites istring rule n tt)) = []
    /\ determinize_calls (trace (rewrite.matches istring ostring rule)) = [].
Proof.
  intros L istring ostring rule tt sm n lattice clean cap once. subst once.
  unfold rewrite.one_top_rewrite, rewrite.optimal_rewrites, rewrite.rewrites,
    rewrite.top_rewrite, rewrite.top_rewrites, rewrite.matches.
  rewrite !determinize_calls_after_rewrite. cbv zeta. fold lattice clean.
  destruct (start lattice =? NO_STATE_ID); [repeat split |].
  repeat split.
  - rewrite determinize_calls_dfa_then; [reflexivity |]. intros d.
    apply determinize_calls_one_top_string.
  - rewrite determinize_calls_dfa_then; [reflexivity |]. reflexivity.
  - rewrite determinize_calls_dfa_then; [reflexivity |]. reflexivity.
Qed.

(* ------------------------------------------------------------------ *)
(** ** The further properties at work on the reference instance *)

Section FurtherOnPathModel.
Local Existing Instance PathModel.lib.

(** X1 at work: ["b"] against a rule that rewrites ["a"] only. *)
Lemma single_rule_functions_fail_fast_witness :
  let rule : Fst := PathModel.rule "a" [("p", 0); ("q", 1)] in
  start (compose (Str "b") rule "alt_sequence") = NO_STATE_ID
  /\ rewrite.rewrites (Str "b") rule "byte" 4
     = (Raise CompositionFailure,
        [Compose (Str "b") rule "alt_sequence";
         Start (compose (Str "b") rule "alt_sequence")])
  /\ result (rewrite.top_rewrites (Str "b") rule 2 "byte")
     = Raise CompositionFailure.
Proof.
  intros rule.
  assert (H : start (compose (Str "b") rule "alt_sequence") = NO_STATE_ID)
    by reflexivity.
  split; [exact H |].
  destruct (single_rule_functions_fail_fast PathModel.lib (Str "b") rule H)
    as [_ [_ [Hrewrites [Htop _]]]].
  split.
  - apply Hrewrites.
  - now rewrite Htop.
Defined.

(** X9 at work: a history with two failed calls; the rules are those of
    the last call that succeeded. *)
Lemma rules_follow_last_successful_call_witness :
  let calls := [["a_to_b"]; ["nope"]; ["b_to_c"; "c_to_d"]; ["tie"; "gone"]] in
  let st := after_calls "rules.far" calls in
  snd st = Some ["b_to_c"; "c_to_d"]
  /\ exists fs,
      all_present path_model_contents (Far_open "rules.far")
                  ["b_to_c"; "c_to_d"] fs
      /\ rule_cascade.rules (fst st) = map (fun f => arcsort f "ilabel") fs.
Proof.
  intros calls st. split; [reflexivity |].
  exact (rules_follow_last_successful_call PathModel.lib path_model_contents
           path_model_far_laws "rules.far" calls).
Defined.

(** X10 at work: output strings with runs of spaces and spaces at the
    ends. *)
Lemma strings_and_weights_tokens_witness :
  let lattice : Fst := PathModel.rule "a" [(" k  ae t ", 2); ("d ao g", 1)] in
  start lattice <> NO_STATE_ID
  /\ result (rewrite.lattice_to_strings_and_weights lattice "byte" "byte")
     = Ok (Py.VList [Py.VTuple [Py.VStr "d"; Py.VStr "ao"; Py.VStr "g"];
                     Py.VTuple [Py.VStr "k"; Py.VStr "ae"; Py.VStr "t"]])
  /\ exists v,
      result (rewrite.lattice_to_strings_and_weights lattice "byte" "byte")
      = Ok v
      /\ Forall (Forall (fun w => is_token w = true)) (tuples_of v).
Proof.
  intros lattice.
  assert (H : start lattice <> NO_STATE_ID) by discriminate.
  split; [exact H | split; [reflexivity |]].
  destruct (strings_and_weights_tokens PathModel.lib lattice "byte" "byte" H)
    as [[v [Hres [_ [Htok _]]]] _].
  exists v. split; assumption.
Defined.

End FurtherOnPathModel.
